(** * Dark Web Gatherer: crawl engine and deduplicated encrypted store

    A shallow embedding of [core/onion_scraper.py], [core/tor_controller.py]
    and [core/data_manager.py] (second version of the program), with the
    properties of the crawl engine and of the store stated over it.

    Conventions.
    - A Python [str] is a list of Unicode code points ([N]); a [bytes] value
      is a list of octets ([N] below 256).
    - Library code the program calls (requests, BeautifulSoup, urljoin,
      Fernet, SHA-256, json, the clock, the random source) is an interface:
      a type class whose instances are the possible behaviours.
    - Effects are explicit: the scraper threads a history of network
      events, the store threads the database and the file system. *)

From Stdlib Require Import ZArith NArith Lia List String Ascii DecimalString.
From stdpp Require Import base option list gmap sets strings sorting.
Import ListNotations.

#[local] Open Scope N_scope.

(** ** Python primitives *)
Module Py.

(** [str]: a sequence of code points. *)
Definition str : Type := list N.
(** [bytes]: a sequence of octets. *)
Definition bytes : Type := list N.

(** A string literal of the source. *)
Definition lit (s : string) : str :=
  map N_of_ascii (list_ascii_of_string s).

(** The exceptions the modelled code can meet. *)
Inductive exn : Type :=
| ValueError (msg : str)
| KeyError (key : str)
| IndexError
| TypeError
| UnicodeEncodeError (pos : nat)
| UnicodeDecodeError
| JSONDecodeError
| InvalidToken
| DatabaseError
| RequestException (msg : str)
| OSError (msg : str)
| OverflowError.

(** Result of a call that may raise. *)
Inductive outcome (A : Type) : Type :=
| Return (a : A)
| Raise (e : exn).
Arguments Return {A} a.
Arguments Raise {A} e.

(** [s[:n]] for a non-negative constant [n]. *)
Definition slice_to {A} (n : nat) (s : list A) : list A := take n s.

(** [str(n)] and the [{n}] of an f-string, for a non-negative integer. *)
Definition str_of_nat (n : nat) : str :=
  lit (NilEmpty.string_of_uint (Nat.to_uint n)).

(** [c.lower()] on one code point. The ASCII letters, and the two code
    points above 127 whose lower case contains an ASCII letter (the Kelvin
    sign, and the dotted capital I, which gives two code points). Every other
    code point above 127 lower-cases to code points above 127; they are left
    as they are, which no comparison with ASCII text can tell apart. *)
Definition lower_cp (c : N) : list N :=
  if (65 <=? c) && (c <=? 90) then [c + 32]
  else if c =? 0x212A then [107]
  else if c =? 0x130 then [105; 0x307]
  else [c].

Definition lower (s : str) : str := concat (map lower_cp s).

Definition eqb_str (a b : str) : bool := bool_decide (a = b).

(** [s.startswith(p)] *)
Fixpoint startswith (s p : str) : bool :=
  match p, s with
  | [], _ => true
  | _ :: _, [] => false
  | c :: p', d :: s' => (c =? d) && startswith s' p'
  end.

(** [s.endswith(p)] *)
Definition endswith (s p : str) : bool :=
  startswith (rev s) (rev p).

(** [s.split(sep)] for a one-character separator: the pieces between the
    separators, always at least one piece. *)
Fixpoint split (sep : N) (s : str) : list str :=
  match s with
  | [] => [[]]
  | c :: s' =>
      if c =? sep then [] :: split sep s'
      else match split sep s' with
           | [] => [[c]]
           | p :: ps => (c :: p) :: ps
           end
  end.

(** [sep.join(parts)] *)
Fixpoint join (sep : str) (parts : list str) : str :=
  match parts with
  | [] => []
  | [p] => p
  | p :: ps => p ++ sep ++ join sep ps
  end.

(** Python's white space, the characters [str.strip()] removes. *)
Definition is_space (c : N) : bool :=
  ((9 <=? c) && (c <=? 13)) || ((28 <=? c) && (c <=? 32)) ||
  (c =? 0x85) || (c =? 0xA0) || (c =? 0x1680) ||
  ((0x2000 <=? c) && (c <=? 0x200A)) ||
  (c =? 0x2028) || (c =? 0x2029) || (c =? 0x202F) || (c =? 0x205F) ||
  (c =? 0x3000).

Fixpoint lstrip (s : str) : str :=
  match s with
  | c :: s' => if is_space c then lstrip s' else s
  | [] => []
  end.

Definition strip (s : str) : str := rev (lstrip (rev (lstrip s))).

(** *** UTF-8, the codec of [str.encode()] and [bytes.decode()] *)

Definition is_surrogate (c : N) : bool := (0xD800 <=? c) && (c <=? 0xDFFF).

(** The octets of one code point; [None] where the strict codec raises
    (a lone surrogate) or the number is no code point at all. *)
Definition encode_cp (c : N) : option bytes :=
  if c <? 0x80 then Some [c]
  else if c <? 0x800 then Some [0xC0 + c / 64; 0x80 + c mod 64]
  else if c <? 0x10000 then
    if is_surrogate c then None
    else Some [0xE0 + c / 4096; 0x80 + (c / 64) mod 64; 0x80 + c mod 64]
  else if c <? 0x110000 then
    Some [0xF0 + c / 262144; 0x80 + (c / 4096) mod 64;
          0x80 + (c / 64) mod 64; 0x80 + c mod 64]
  else None.

(** [s.encode()]: [Raise] at the first character that has no encoding. *)
Fixpoint encode_from (pos : nat) (s : str) : outcome bytes :=
  match s with
  | [] => Return []
  | c :: s' =>
      match encode_cp c with
      | None => Raise (UnicodeEncodeError pos)
      | Some bs =>
          match encode_from (S pos) s' with
          | Return r => Return (bs ++ r)
          | Raise e => Raise e
          end
      end
  end.

Definition encode (s : str) : outcome bytes := encode_from 0 s.

Definition is_cont (b : N) : bool := (0x80 <=? b) && (b <=? 0xBF).

(** [b.decode()], strict: [None] stands for UnicodeDecodeError (a stray or
    missing continuation octet, an overlong form, a surrogate, a value
    above U+10FFFF). *)
Fixpoint decode (b : bytes) : option str :=
  match b with
  | [] => Some []
  | b0 :: r0 =>
      if b0 <? 0x80 then cons b0 <$> decode r0
      else if (0xC2 <=? b0) && (b0 <=? 0xDF) then
        match r0 with
        | b1 :: r1 =>
            if is_cont b1
            then cons ((b0 - 0xC0) * 64 + (b1 - 0x80)) <$> decode r1
            else None
        | _ => None
        end
      else if (0xE0 <=? b0) && (b0 <=? 0xEF) then
        match r0 with
        | b1 :: b2 :: r2 =>
            let c := (b0 - 0xE0) * 4096 + (b1 - 0x80) * 64 + (b2 - 0x80) in
            if is_cont b1 && is_cont b2 && (0x800 <=? c) && negb (is_surrogate c)
            then cons c <$> decode r2
            else None
        | _ => None
        end
      else if (0xF0 <=? b0) && (b0 <=? 0xF4) then
        match r0 with
        | b1 :: b2 :: b3 :: r3 =>
            let c := (b0 - 0xF0) * 262144 + (b1 - 0x80) * 4096
                     + (b2 - 0x80) * 64 + (b3 - 0x80) in
            if is_cont b1 && is_cont b2 && is_cont b3
               && (0x10000 <=? c) && (c <? 0x110000)
            then cons c <$> decode r3
            else None
        | _ => None
        end
      else None
  end.

(** A string [str.encode()] accepts: code points, none of them a surrogate. *)
Definition encodable (s : str) : Prop :=
  Forall (fun c => c < 0x110000 ∧ is_surrogate c = false) s.

(** [re.search(r"\.ext$", s)]: the literal suffix at the end of the string,
    or just before one final newline. *)
Definition search_suffix (suffix : str) (s : str) : bool :=
  endswith s suffix || endswith s (suffix ++ [10]).

(** A collected item, the dict the scraper builds and the store reads. A
    field is [None] when the key is absent. *)
Record item : Type := Item {
  i_type : option str;
  i_title : option str;
  i_url : option str;
  i_content : option str;
  i_timestamp : option str;
  i_links : option nat
}.

(** The order in which Python enumerates a set: some enumeration of its
    elements, fixed by the hashes, not by the program. *)
Class SetOrder : Type := {
  list_of_set : gset str → list str;
  list_of_set_perm : ∀ s, list_of_set s ≡ₚ elements s
}.

End Py.

Import Py.

(** ** core/tor_controller.py and core/onion_scraper.py *)
Module Scraper.

(** What the transport answers to one GET. *)
Inductive response : Type :=
| Resp (status_code : Z) (text : str)
| NetErr (e : exn).

(** What a fetch does to the outside world, in order. *)
Inductive event : Type :=
| EvUserAgent                      (* session.headers.update(User-Agent) *)
| EvDelay                          (* time.sleep(random.uniform(3, 7)) *)
| EvGet (url : str) (r : response) (* session.get(url, ...) and its answer *)
| EvSleep (seconds : nat)          (* time.sleep(n) *)
| EvRenewIdentity (ok : bool).     (* one call of tor.renew_identity() *)

Definition history : Type := list event.

(** The network behind the Tor session: the answer to a GET and the state
    of the control port may depend on everything that happened before. *)
Class Transport : Type := {
  session_get : history → str → response;
  control_port_ok : history → bool
}.

(** BeautifulSoup, as far as the scraper looks at a parsed page. *)
Class HtmlParser : Type := {
  (* soup.title, and inside it soup.title.string, after script/style/iframe/
     noscript are removed *)
  soup_title : str → option (option str);
  (* soup.stripped_strings, after script/style/iframe/noscript are removed *)
  soup_stripped_strings : str → list str;
  (* soup.find_all('a') after script/style/iframe/noscript are removed: the
     anchors that are left, each with its href attribute, if it has one *)
  soup_anchors_left : str → list (option str);
  (* soup.find_all('a') on the page as parsed: every anchor with its href
     attribute, if it has one *)
  soup_anchors : str → list (option str)
}.

(** urllib.parse: the parts that depend on Unicode tables and on the IP
    address grammar, and urljoin. *)
Class UrlLib : Type := {
  urljoin : str → str → outcome str;
  (* _checknetloc raises for this non-ASCII netloc *)
  checknetloc_raises : str → bool;
  (* _check_bracketed_netloc raises for this netloc with [ and ] *)
  bracketed_netloc_raises : str → bool
}.

(** The clock and the random numbers [search] draws. *)
Class Env : Type := {
  strftime : history → str;
  randint_1_100 : nat → nat
}.

(** The attributes [__init__] sets. *)
Record OnionScraper : Type := {
  visited_urls : gset str;
  max_retries : nat;
  timeout : nat;
  request_delay : nat * nat;
  blacklist : list str
}.

(** The blacklist patterns are all of the form [\.ext$]; the list holds the
    literal suffixes. *)
Definition __init__ : OnionScraper := {|
  visited_urls := ∅;
  max_retries := 3;
  timeout := 30;
  request_delay := (3, 7)%nat;
  blacklist := map lit [".exe"; ".zip"; ".rar"; ".tar"; ".gz";
                        ".mp3"; ".mp4"; ".avi"; ".mkv"; ".pdf"]%string
|}.

(** *** urlparse: scheme and netloc (urllib.parse.urlsplit of CPython 3.12) *)

Definition is_ascii_alpha (c : N) : bool :=
  ((65 <=? c) && (c <=? 90)) || ((97 <=? c) && (c <=? 122)).

Definition is_scheme_char (c : N) : bool :=
  is_ascii_alpha c || ((48 <=? c) && (c <=? 57)) ||
  (c =? 43) || (c =? 45) || (c =? 46).

(** [url.lstrip(_WHATWG_C0_CONTROL_OR_SPACE)] *)
Fixpoint lstrip_c0 (url : str) : str :=
  match url with
  | c :: r => if c <=? 32 then lstrip_c0 r else url
  | [] => []
  end.

(** removal of tab, carriage return and newline *)
Definition remove_unsafe (url : str) : str :=
  filter (λ c, c ≠ 9 ∧ c ≠ 10 ∧ c ≠ 13) url.

(** [url.find(':')] split: the text before the first colon and the text
    after it. *)
Fixpoint cut_at (sep : N) (s : str) : option (str * str) :=
  match s with
  | [] => None
  | c :: r =>
      if c =? sep then Some ([], r)
      else match cut_at sep r with
           | Some (a, b) => Some (c :: a, b)
           | None => None
           end
  end.

(** [(scheme, rest)] *)
Definition split_scheme (url : str) : str * str :=
  match cut_at 58 url with
  | Some (c :: pre, rest) =>
      if is_ascii_alpha c && forallb is_scheme_char (c :: pre)
      then (lower (c :: pre), rest)
      else ([], url)
  | _ => ([], url)
  end.

(** [_splitnetloc(url, 2)]: up to the first of [/], [?], [#]. *)
Fixpoint until_delim (s : str) : str :=
  match s with
  | [] => []
  | c :: r => if (c =? 47) || (c =? 63) || (c =? 35) then [] else c :: until_delim r
  end.

Definition mem (c : N) (s : str) : bool := existsb (N.eqb c) s.

Record ParseResult : Type := { scheme : str; netloc : str }.

Section Parse.
Context `{UrlLib}.

Definition urlparse (url : str) : outcome ParseResult :=
  let url := remove_unsafe (lstrip_c0 url) in
  let '(sch, rest) := split_scheme url in
  match rest with
  | 47 :: 47 :: after =>
      let nl := until_delim after in
      if (mem 91 nl && negb (mem 93 nl)) || (mem 93 nl && negb (mem 91 nl))
      then Raise (ValueError (lit "Invalid IPv6 URL"))
      else if mem 91 nl && mem 93 nl && bracketed_netloc_raises nl
      then Raise (ValueError (lit "Invalid IPv6 URL"))
      else if negb (forallb (λ c, c <? 128) nl) && checknetloc_raises nl
      then Raise (ValueError (lit "netloc contains invalid characters under NFKC normalization"))
      else Return {| scheme := sch; netloc := nl |}
  | _ => Return {| scheme := sch; netloc := [] |}
  end.

(** [_validate_onion_url]: any exception counts as invalid. *)
Definition _validate_onion_url (self : OnionScraper) (url : str) : bool :=
  match urlparse url with
  | Return parsed =>
      (eqb_str (scheme parsed) (lit "http") || eqb_str (scheme parsed) (lit "https"))
      && endswith (netloc parsed) (lit ".onion")
      && (length (netloc parsed) =? 22)%nat
  | Raise _ => false
  end.

(** [_is_blacklisted] *)
Definition _is_blacklisted (self : OnionScraper) (url : str) : bool :=
  existsb (λ pattern, search_suffix pattern (lower url)) (blacklist self).

End Parse.

(** *** Fetching *)

Section Crawl.
Context `{Transport, HtmlParser, UrlLib, Env, SetOrder}.

(** [TorController.renew_identity]: asks the control port for a new circuit
    and waits for it; every failure is caught and answered with [False]. *)
Definition renew_identity (h : history) : bool * history :=
  if control_port_ok h
  then (true, h ++ [EvRenewIdentity true; EvSleep 5])
  else (false, h ++ [EvRenewIdentity false]).

(** The body of [for attempt in range(self.max_retries)] of [_fetch_url],
    over the attempts still to run. Falling out of the loop returns [None]. *)
Fixpoint fetch_attempts (self : OnionScraper) (url : str)
    (attempts : list nat) (h : history) : outcome (option str) * history :=
  match attempts with
  | [] => (Return None, h)
  | attempt :: rest =>
      let h1 := h ++ [EvUserAgent; EvDelay] in
      let r := session_get h1 url in
      let h2 := h1 ++ [EvGet url r] in
      match r with
      | Resp status_code text =>
          if (status_code =? 200)%Z then (Return (Some text), h2)
          else if (status_code =? 403)%Z || (status_code =? 404)%Z
          then (Return None, h2)
          else (Return None, h2)
      | NetErr e =>
          if (attempt =? max_retries self - 1)%nat then (Raise e, h2)
          else fetch_attempts self url rest
                 (snd (renew_identity (h2 ++ [EvSleep 5])))
      end
  end.

Definition _fetch_url (self : OnionScraper) (url : str) (h : history)
  : outcome (option str) * history :=
  fetch_attempts self url (seq 0 (max_retries self)) h.

(** *** Extraction *)

(** [_extract_page_data]: the title, the text and the number of anchors are
    read after the script, style, iframe and noscript elements were taken out
    of the soup. [title[:200]] raises TypeError when the page has a title
    element without a string. *)
Definition _extract_page_data (url html : str) (h : history) : outcome item :=
  let title := match soup_title html with
               | Some title_string => title_string
               | None => Some url
               end in
  let text := join (lit " ") (soup_stripped_strings html) in
  match title with
  | None => Raise TypeError
  | Some title =>
      Return {| i_type := Some (lit "page");
                i_title := Some (slice_to 200 title);
                i_url := Some url;
                i_content := Some (slice_to 5000 text);
                i_timestamp := Some (strftime h);
                i_links := Some (length (soup_anchors_left html)) |}
  end.

(** The loop of [_extract_links] over the anchors, filling the set [links]. *)
Fixpoint collect_links (self : OnionScraper) (base_url : str)
    (anchors : list (option str)) (links : gset str) : outcome (gset str) :=
  match anchors with
  | [] => Return links
  | None :: rest => collect_links self base_url rest links
  | Some raw :: rest =>
      let href := strip raw in
      if bool_decide (href = []) || startswith href (lit "javascript:")
         || startswith href (lit "mailto:") || startswith href (lit "#")
      then collect_links self base_url rest links
      else match urljoin base_url href with
           | Raise e => Raise e
           | Return full_url =>
               if _validate_onion_url self full_url
                  && negb (_is_blacklisted self full_url)
               then collect_links self base_url rest (links ∪ {[full_url]})
               else collect_links self base_url rest links
           end
  end.

Definition _extract_links (self : OnionScraper) (base_url html : str)
  : outcome (list str) :=
  match collect_links self base_url (soup_anchors html) ∅ with
  | Return links => Return (slice_to 20 (list_of_set links))
  | Raise e => Raise e
  end.

(** *** Crawling *)

(** What a crawl mutates: the scraper object (its visited set), the result
    list handed down by [scrape], and the network history. *)
Record Crawl : Type := {
  this : OnionScraper;
  results : list item;
  net : history
}.

Definition visit (url : str) (self : OnionScraper) : OnionScraper :=
  {| visited_urls := visited_urls self ∪ {[url]};
     max_retries := max_retries self;
     timeout := timeout self;
     request_delay := request_delay self;
     blacklist := blacklist self |}.

Definition clear_visited (self : OnionScraper) : OnionScraper :=
  {| visited_urls := ∅;
     max_retries := max_retries self;
     timeout := timeout self;
     request_delay := request_delay self;
     blacklist := blacklist self |}.

(** [for link in links: time.sleep(...); self._crawl(link, ...)], with the
    recursive call as a parameter. *)
Fixpoint crawl_links (rec : str → Crawl → option Crawl)
    (links : list str) (st : Crawl) : option Crawl :=
  match links with
  | [] => Some st
  | link :: rest =>
      match rec link {| this := this st; results := results st;
                        net := net st ++ [EvDelay] |} with
      | Some st' => crawl_links rec rest st'
      | None => None
      end
  end.

(** [_crawl(url, depth, results, current_depth)]. The recursion of the
    source goes one level down per call; [fuel] bounds the levels, and
    [None] means the bound was too small (it never is in [scrape], see
    [crawl_fuel] below). An exception of the body is caught by the
    [except Exception] of the same call and ends that call only. *)
Fixpoint _crawl (fuel : nat) (url : str) (depth : Z) (st : Crawl)
    (current_depth : Z) : option Crawl :=
  match fuel with
  | O => None
  | S fuel' =>
      if (current_depth >? depth)%Z || bool_decide (url ∈ visited_urls (this st))
      then Some st
      else
        let self := visit url (this st) in
        match _fetch_url self url (net st) with
        | (Raise e, h) =>
            Some {| this := self; results := results st; net := h |}
        | (Return None, h) | (Return (Some []), h) =>
            Some {| this := self; results := results st; net := h |}
        | (Return (Some html_content), h) =>
            match _extract_page_data url html_content h with
            | Raise e =>
                Some {| this := self; results := results st; net := h |}
            | Return page_data =>
                let st1 := {| this := self;
                              results := results st ++ [page_data];
                              net := h |} in
                if (current_depth <? depth)%Z then
                  match _extract_links self url html_content with
                  | Raise e => Some st1
                  | Return links =>
                      crawl_links
                        (λ link st', _crawl fuel' link depth st' (current_depth + 1)%Z)
                        links st1
                  end
                else Some st1
            end
        end
  end.

(** Levels a crawl to [depth] can open, counting the call at [depth + 1]
    that returns at once. *)
Definition crawl_fuel (depth : Z) : nat := S (Z.to_nat (depth + 1)).

(** [scrape(onion_url, depth)]: the result list, or the ValueError of an
    invalid seed, with the scraper and the history after the call. *)
Definition scrape (self : OnionScraper) (onion_url : str) (depth : Z)
    (h : history) : option (outcome (list item) * OnionScraper * history) :=
  if negb (_validate_onion_url self onion_url)
  then Some (Raise (ValueError (lit "Invalid .onion URL")), self, h)
  else
    match _crawl (crawl_fuel depth) onion_url depth
            {| this := clear_visited self; results := []; net := h |} 0%Z with
    | Some st => Some (Return (results st), this st, net st)
    | None => None
    end.

(** [search(query, max_results)]: the placeholder results. *)
Definition search_result (query : str) (h : history) (i : nat) : item :=
  {| i_type := Some (lit "search_result");
     i_title := Some (lit "Result for '" ++ query ++ lit "' #" ++ str_of_nat (i + 1));
     i_url := Some (lit "http://simulated" ++ str_of_nat (randint_1_100 i)
                    ++ lit ".onion");
     i_content := Some (lit "Sample content containing " ++ query);
     i_timestamp := Some (strftime h);
     i_links := None |}.

Definition search (self : OnionScraper) (query : str) (max_results : Z)
    (h : history) : list item :=
  map (search_result query h) (seq 0 (Z.to_nat (Z.min max_results 5))).

End Crawl.

(** *** Reachability over links *)

Section Reach.
Context `{Transport, HtmlParser, UrlLib, Env, SetOrder}.

(** [u] links to [v]: some answer 200 the transport gives for [u] is a page
    from which [_extract_links], with the blacklist [bl], extracts [v]. *)
Definition links_to (bl : list str) (u v : str) : Prop :=
  ∃ self h html links,
    blacklist self = bl
    ∧ session_get h u = Resp 200 html
    ∧ _extract_links self u html = Return links
    ∧ v ∈ links.

(** [hops bl seed n u]: [u] is reached from [seed] over [n] links. *)
Inductive hops (bl : list str) (seed : str) : nat → str → Prop :=
| hops_seed : hops bl seed 0 seed
| hops_link n u v : hops bl seed n u → links_to bl u v → hops bl seed (S n) v.

(** What every crawl keeps true, for the seed and depth of one [scrape]:
    each collected item carries the URL it was fetched from, that URL is in
    the visited set and a bounded number of links away from the seed, and no
    two items carry the same URL. *)
Record crawl_ok (bl : list str) (seed : str) (depth : Z) (st : Crawl) : Prop := {
  ok_blacklist : blacklist (this st) = bl;
  ok_items : Forall (λ it, ∃ u n, i_url it = Some u
                                  ∧ u ∈ visited_urls (this st)
                                  ∧ hops bl seed n u
                                  ∧ (Z.of_nat n ≤ depth)%Z) (results st);
  ok_nodup : NoDup (map i_url (results st))
}.

(** What a crawl does to the network, step by step: the pause of the link
    loop before a call of [_crawl], and the fetch of a URL by a call that
    went on to visit it. *)
Inductive crawl_step : Type :=
| Pause
| Fetch (u : str).

Definition step_url (s : crawl_step) : option str :=
  match s with
  | Pause => None
  | Fetch u => Some u
  end.

(** The URLs fetched, in the order of the fetches. *)
Definition fetched_urls (steps : list crawl_step) : list str := omap step_url steps.

(** The history after running the steps one after the other: a pause is one
    delay, a fetch is one call of [_fetch_url], with all its attempts. *)
Fixpoint replay (self : OnionScraper) (steps : list crawl_step) (h : history)
  : history :=
  match steps with
  | [] => h
  | Pause :: rest => replay self rest (h ++ [EvDelay])
  | Fetch u :: rest => replay self rest (snd (_fetch_url self u h))
  end.

(** What a call of [_crawl] that leads from [st] to [st'] did, for the seed
    and depth of one [scrape]: the network saw the steps and nothing else, no
    URL was fetched twice, the URLs fetched were not in the visited set and
    are in it now, and each of them is a bounded number of links away from
    the seed. *)
Record crawl_log (bl : list str) (seed : str) (depth : Z) (st st' : Crawl)
    (steps : list crawl_step) : Prop := {
  log_net : net st' = replay (this st) steps (net st);
  log_nodup : NoDup (fetched_urls steps);
  log_visited : ∀ u, u ∈ visited_urls (this st')
                     ↔ u ∈ visited_urls (this st) ∨ u ∈ fetched_urls steps;
  log_new : ∀ u, u ∈ fetched_urls steps → u ∉ visited_urls (this st);
  log_hops : Forall (λ u, ∃ n, hops bl seed n u ∧ (Z.of_nat n ≤ depth)%Z)
               (fetched_urls steps);
  log_retries : max_retries (this st') = max_retries (this st);
  log_blacklist : blacklist (this st') = blacklist (this st)
}.

End Reach.

End Scraper.

(** ** core/data_manager.py *)
Module Store.

(** *** The libraries behind the store *)

(** cryptography.fernet. A [cipher] is a Fernet object and exists only for a
    well-formed key. Encryption draws a time stamp and an IV, the [nonce];
    decryption [None] is InvalidToken. *)
Class Fernet : Type := {
  cipher : Type;
  generate_key : nat → bytes;
  new_cipher : bytes → outcome cipher;
  fernet_encrypt : cipher → nat → bytes → bytes;
  fernet_decrypt : cipher → bytes → option bytes;
  fernet_generated : ∀ seed, ∃ c, new_cipher (generate_key seed) = Return c;
  fernet_round_trip : ∀ c nonce m, fernet_decrypt c (fernet_encrypt c nonce m) = Some m
}.

(** hashlib.sha256(...).hexdigest() *)
Class Sha256 : Type := {
  sha256_hexdigest : bytes → str
}.

(** json.dumps on a string (ASCII output, the default [ensure_ascii]) and
    json.loads ([None] is a decoding error). *)
Class Json : Type := {
  jvalue : Type;
  json_dumps : str → str;
  json_loads : str → option jvalue;
  json_dumps_ascii : ∀ s, Forall (λ c, c < 128) (json_dumps s)
}.

(** What a record-level read hands back in the content column. *)
Inductive cell `{Json} : Type :=
| Null
| Blob (b : bytes)
| Text (s : str)
| Decoded (v : jvalue).

(** *** The database *)

(** A row of [collected_data]. The [id] column is assigned by the engine and
    never read by the program; it is left out. [source_hash] and [url] carry
    the UNIQUE constraints. *)
Record Row : Type := {
  data_type : str;
  title : str;
  url : str;
  content : option bytes;
  timestamp : Z;
  source_hash : str;
  is_sensitive : Z
}.

(** A row of [scan_metadata]. *)
Record ScanMetadata : Type := {
  scan_start : Z;
  scan_end : option Z;
  items_collected : nat;
  domains_scanned : str
}.

Record DB : Type := {
  collected_data : list Row;
  scan_metadata : list ScanMetadata
}.

(** [_init_db] on a new file: both tables, empty. *)
Definition empty_db : DB := {| collected_data := []; scan_metadata := [] |}.

(** The object: file names and the cipher built from the key file. *)
Record DataManager `{Fernet} : Type := {
  db_name : str;
  key_file : str;
  the_cipher : cipher
}.

(** What one call of [save] reads from outside: the wall clock at its start,
    the database clock when the i-th item is inserted, and the nonce of the
    i-th encryption. *)
Record SaveEnv : Type := {
  now : Z;
  current_timestamp : nat → Z;
  nonce_of : nat → nat
}.

(** [ORDER BY timestamp DESC]: the rows of the table, none lost and none
    added, no row before a newer one. The order of rows with equal time
    stamps is the engine's choice, not the program's. *)
Definition newer_or_same (a b : Row) : Prop := (timestamp b ≤ timestamp a)%Z.

#[global] Instance newer_or_same_dec : RelDecision newer_or_same.
Proof. intros a b. unfold newer_or_same. apply _. Defined.

Class SqlOrder : Type := {
  order_by_timestamp_desc : list Row → list Row;
  order_by_permutation : ∀ rows, order_by_timestamp_desc rows ≡ₚ rows;
  order_by_sorted : ∀ rows, StronglySorted newer_or_same (order_by_timestamp_desc rows)
}.

Section Operations.
Context `{Fernet, Sha256, Json, SetOrder, SqlOrder}.

(** [_encrypt_data]: a [str] is encoded first. *)
Definition _encrypt_data (self : DataManager) (nonce : nat) (data : str + bytes)
  : outcome bytes :=
  match data with
  | inl s =>
      match encode s with
      | Return b => Return (fernet_encrypt (the_cipher self) nonce b)
      | Raise e => Raise e
      end
  | inr b => Return (fernet_encrypt (the_cipher self) nonce b)
  end.

(** [_decrypt_data] *)
Definition _decrypt_data (self : DataManager) (encrypted_data : bytes)
  : outcome str :=
  match fernet_decrypt (the_cipher self) encrypted_data with
  | None => Raise InvalidToken
  | Some b =>
      match decode b with
      | Some s => Return s
      | None => Raise UnicodeDecodeError
      end
  end.

(** The fingerprint of an item: [sha256((url + str(content)).encode())]. *)
Definition fingerprint (item : item) : outcome str :=
  match encode (default [] (i_url item) ++ default [] (i_content item)) with
  | Return b => Return (sha256_hexdigest b)
  | Raise e => Raise e
  end.

(** [item['url'].split('/')[2] if 'url' in item else 'unknown'] *)
Definition domain_of (item : item) : outcome str :=
  match i_url item with
  | Some u =>
      match split 47 u !! 2%nat with
      | Some d => Return d
      | None => Raise IndexError
      end
  | None => Return (lit "unknown")
  end.

(** [INSERT OR IGNORE INTO collected_data]: a row whose url or source_hash
    is already there is dropped; the second component is [cursor.rowcount]. *)
Definition conflicts (rows : list Row) (r : Row) : bool :=
  existsb (λ r', bool_decide (url r' = url r)
                 || bool_decide (source_hash r' = source_hash r)) rows.

Definition insert_or_ignore (db : DB) (r : Row) : DB * nat :=
  if conflicts (collected_data db) r then (db, 0%nat)
  else ({| collected_data := collected_data db ++ [r];
           scan_metadata := scan_metadata db |}, 1%nat).

(** The local variables of the loop of [save]. *)
Record SaveLoop : Type := {
  the_db : DB;
  domains : gset str;
  saved_count : nat
}.

(** Whether sqlite3 can bind a [str] parameter: the text is encoded to
    UTF-8, and what [str.encode()] refuses raises UnicodeEncodeError. *)
Definition binds (s : str) : bool :=
  match encode s with
  | Return _ => true
  | Raise _ => false
  end.

(** One turn of [for item in items], the try block with its
    [except Exception: continue]. [i] is the position in the batch. The
    INSERT raises when one of its four texts cannot be bound, and the item is
    passed over like any other that raised. *)
Definition save_item (self : DataManager) (env : SaveEnv) (st : SaveLoop)
    (i : nat) (item : item) : SaveLoop :=
  match fingerprint item with
  | Raise _ => st
  | Return content_hash =>
      let encrypted_content :=
        match i_content item with
        | Some (c :: s) =>
            match _encrypt_data self (nonce_of env i) (inl (json_dumps (c :: s))) with
            | Return b => Return (Some b)
            | Raise e => Raise e
            end
        | _ => Return None
        end in
      match encrypted_content with
      | Raise _ => st
      | Return encrypted_content =>
          match domain_of item with
          | Raise _ => st
          | Return domain =>
              let domains' := domains st ∪ {[domain]} in
              match i_url item with
              | None =>
                  (* item['url'] raises KeyError, after domains.add *)
                  {| the_db := the_db st; domains := domains';
                     saved_count := saved_count st |}
              | Some u =>
                  let r :=
                    {| data_type := default (lit "unknown") (i_type item);
                       title := slice_to 500 (default (lit "No title") (i_title item));
                       url := u;
                       content := encrypted_content;
                       timestamp := current_timestamp env i;
                       source_hash := content_hash;
                       is_sensitive := 0 |} in
                  if binds (data_type r) && binds (title r) && binds (url r)
                     && binds (source_hash r)
                  then
                    let '(db', rowcount) := insert_or_ignore (the_db st) r in
                    {| the_db := db'; domains := domains';
                       saved_count := (saved_count st + rowcount)%nat |}
                  else
                    (* cursor.execute raises UnicodeEncodeError, after domains.add *)
                    {| the_db := the_db st; domains := domains';
                       saved_count := saved_count st |}
              end
          end
      end
  end.

Fixpoint save_loop (self : DataManager) (env : SaveEnv) (st : SaveLoop)
    (i : nat) (items : list item) : SaveLoop :=
  match items with
  | [] => st
  | item :: rest => save_loop self env (save_item self env st i item) (S i) rest
  end.

(** [save(items)] on a database whose tables exist: the returned flag and
    the database after the commit. *)
Definition save (self : DataManager) (env : SaveEnv) (db : DB)
    (items : list item) : bool * DB :=
  match items with
  | [] => (false, db)
  | _ =>
      let st := save_loop self env
                  {| the_db := db; domains := ∅; saved_count := 0 |} 0 items in
      let db' := {| collected_data := collected_data (the_db st);
                    scan_metadata := scan_metadata (the_db st) ++
                      [{| scan_start := now env;
                          scan_end := None;
                          items_collected := saved_count st;
                          domains_scanned :=
                            join (lit ",") (slice_to 10 (list_of_set (domains st))) |}] |} in
      (bool_decide (0 < saved_count st)%nat, db')
  end.

(** An integer parameter is bound as an SQLite INTEGER of 64 bits; sqlite3
    raises OverflowError for a Python int outside that range. *)
Definition fits_int64 (n : Z) : bool :=
  (-9223372036854775808 <=? n)%Z && (n <=? 9223372036854775807)%Z.

(** [LIMIT ?]: a negative bound is no bound. *)
Definition sql_limit {A} (limit : Z) (rows : list A) : list A :=
  if (limit <? 0)%Z then rows else take (Z.to_nat limit) rows.

Definition encrypted_content_marker : str := lit "[ENCRYPTED CONTENT]".

(** The content of one loaded record: decrypted and decoded when asked for
    and present, the marker when anything in that fails. *)
Definition load_content (self : DataManager) (decrypt_content : bool)
    (c : option bytes) : cell :=
  match c with
  | None => Null
  | Some [] => Blob []
  | Some b =>
      if decrypt_content then
        match _decrypt_data self b with
        | Return s =>
            match json_loads s with
            | Some v => Decoded v
            | None => Text encrypted_content_marker
            end
        | Raise _ => Text encrypted_content_marker
        end
      else Blob b
  end.

(** [cursor.execute('SELECT * ... ORDER BY timestamp DESC LIMIT ?', (limit,))]
    and [cursor.fetchall()] *)
Definition select_recent (db : DB) (limit : Z) : outcome (list Row) :=
  if fits_int64 limit
  then Return (sql_limit limit (order_by_timestamp_desc (collected_data db)))
  else Raise OverflowError.

(** [load(limit, decrypt_content)]: each record with its content column as
    returned. The exception of the SELECT is not caught. *)
Definition load (self : DataManager) (db : DB) (limit : Z)
    (decrypt_content : bool) : outcome (list (Row * cell)) :=
  match select_recent db limit with
  | Return rows =>
      Return (map (λ r, (r, load_content self decrypt_content (content r))) rows)
  | Raise e => Raise e
  end.

End Operations.

(** *** The files of the store *)

(** What a file holds: plain octets, or a database the engine wrote. *)
Inductive file : Type :=
| Raw (b : bytes)
| Sqlite (d : DB).

(** What the store does to the file system, in order. *)
Inductive fs_event : Type :=
| FsTruncate (path : str)             (* open(path, 'wb') *)
| FsWrite (path : str) (data : bytes) (* f.write(data) *)
| FsRemove (path : str)               (* os.remove(path) *)
| FsConnect (path : str).             (* sqlite3.connect(path), tables made *)

Record FS : Type := {
  files : gmap str file;
  trace : list fs_event
}.

(** The operating system: the random source, the size of a database file,
    and whether the next file operation fails (permissions, a full disk). *)
Class Os : Type := {
  urandom : nat → nat → bytes;
  urandom_length : ∀ seed n, length (urandom seed n) = n;
  db_file_size : DB → nat;
  io_fails : list fs_event → bool
}.

(** File operations: a state monad over [FS] with exceptions. An exception
    keeps the file system as it was when raised. *)
Definition io (A : Type) : Type := FS → outcome A * FS.

#[global] Instance io_ret : MRet io := λ A a fs, (Return a, fs).

#[global] Instance io_bind : MBind io := λ A B k m fs,
  match m fs with
  | (Return a, fs') => k a fs'
  | (Raise e, fs') => (Raise e, fs')
  end.

Definition io_raise {A} (e : exn) : io A := λ fs, (Raise e, fs).

Section Files.
Context `{Fernet, Sha256, Json, SetOrder, SqlOrder, Os}.

Definition getsize_of (f : file) : nat :=
  match f with
  | Raw b => length b
  | Sqlite d => db_file_size d
  end.

(** [os.path.exists] *)
Definition path_exists (path : str) : io bool :=
  λ fs, (Return (bool_decide (is_Some (files fs !! path))), fs).

(** [open(path, 'wb')]: the file is created or cut to length zero. *)
Definition open_wb (path : str) : io unit :=
  λ fs, if io_fails (trace fs) then (Raise (OSError path), fs)
        else (Return (), {| files := <[path := Raw []]> (files fs);
                            trace := trace fs ++ [FsTruncate path] |}).

(** [os.path.getsize] *)
Definition getsize (path : str) : io nat :=
  λ fs, match files fs !! path with
        | Some f => (Return (getsize_of f), fs)
        | None => (Raise (OSError path), fs)
        end.

(** [f.write(data)] on a file opened with [open_wb] *)
Definition write (path : str) (data : bytes) : io unit :=
  λ fs, if io_fails (trace fs) then (Raise (OSError path), fs)
        else match files fs !! path with
             | Some (Raw b) =>
                 (Return (), {| files := <[path := Raw (b ++ data)]> (files fs);
                                trace := trace fs ++ [FsWrite path data] |})
             | _ => (Raise (OSError path), fs)
             end.

(** [os.remove] *)
Definition remove (path : str) : io unit :=
  λ fs, if io_fails (trace fs) then (Raise (OSError path), fs)
        else match files fs !! path with
             | Some _ =>
                 (Return (), {| files := delete path (files fs);
                                trace := trace fs ++ [FsRemove path] |})
             | None => (Raise (OSError path), fs)
             end.

(** [open(path, 'rb').read()] *)
Definition read (path : str) : io bytes :=
  λ fs, match files fs !! path with
        | Some (Raw b) => (Return b, fs)
        | _ => (Raise (OSError path), fs)
        end.

(** [_init_crypto]: the key file is made on first use and read back. *)
Definition _init_crypto (key_file : str) (seed : nat) : io cipher :=
  present ← path_exists key_file;
  (if present : bool then mret ()
   else open_wb key_file;; write key_file (generate_key seed));;
  key ← read key_file;
  match new_cipher key with
  | Return c => mret c
  | Raise e => io_raise e
  end.

(** [sqlite3.connect] followed by the two CREATE TABLE IF NOT EXISTS: a
    missing or empty file becomes a database with empty tables, a database
    stays as it is, anything else is not a database. *)
Definition _init_db (db_name : str) : io unit :=
  λ fs, match files fs !! db_name with
        | None | Some (Raw []) =>
            (Return (), {| files := <[db_name := Sqlite empty_db]> (files fs);
                           trace := trace fs ++ [FsConnect db_name] |})
        | Some (Sqlite d) => (Return (), fs)
        | Some (Raw _) => (Raise DatabaseError, fs)
        end.

(** [DataManager()] *)
Definition __init__ (seed : nat) : io DataManager :=
  let db_name := lit "darkweb_data.db" in
  let key_file := lit "data_key.key" in
  c ← _init_crypto key_file seed;
  _init_db db_name;;
  mret {| db_name := db_name; key_file := key_file; the_cipher := c |}.

(** [load] through the file: the tables must be there. *)
Definition load_file (self : DataManager) (limit : Z) (decrypt_content : bool)
  : io (list (Row * cell)) :=
  λ fs, match files fs !! db_name self with
        | Some (Sqlite d) => (load self d limit decrypt_content, fs)
        | _ => (Raise DatabaseError, fs)
        end.

(** The try block of [wipe]. *)
Definition wipe_body (self : DataManager) (seed : nat) : io unit :=
  present ← path_exists (db_name self);
  (if present : bool then
     open_wb (db_name self);;
     size ← getsize (db_name self);
     write (db_name self) (urandom seed size);;
     remove (db_name self)
   else mret ());;
  present ← path_exists (key_file self);
  if present : bool then remove (key_file self) else mret ().

(** [wipe()]: [True], or [False] when anything raised. *)
Definition wipe (self : DataManager) (seed : nat) (fs : FS) : bool * FS :=
  match wipe_body self seed fs with
  | (Return _, fs') => (true, fs')
  | (Raise _, fs') => (false, fs')
  end.

End Files.

(** *** Sequences of calls and what is counted in the table *)

(** The state of the store after a sequence of [save] calls, each with its
    own batch and its own readings of the clocks. *)
Definition saves `{Fernet, Sha256, Json, SetOrder} (self : DataManager)
    (calls : list (SaveEnv * list item)) (db : DB) : DB :=
  foldl (λ db call, snd (save self (fst call) db (snd call))) db calls.

(** How many stored records carry a fingerprint, and how many a url. *)
Definition count_fingerprint (fp : str) (db : DB) : nat :=
  length (List.filter (λ r, bool_decide (source_hash r = fp)) (collected_data db)).

Definition count_url (u : str) (db : DB) : nat :=
  length (List.filter (λ r, bool_decide (url r = u)) (collected_data db)).

(** Both uniqueness constraints of [collected_data]. *)
Definition unique_keys (db : DB) : Prop :=
  NoDup (map url (collected_data db)) ∧ NoDup (map source_hash (collected_data db)).

(** An item the INSERT of [save] accepts: it has a url [u] with a host
    part, its fingerprint is [fp], and its type, its title cut to 500
    characters and its fingerprint can be bound (the url can, since the
    fingerprint was made of it). *)
Definition insertable `{Sha256} (item : item) (u fp : str) : Prop :=
  i_url item = Some u ∧ fingerprint item = Return fp ∧ is_Some (split 47 u !! 2%nat)
  ∧ binds (default (lit "unknown") (i_type item)) = true
  ∧ binds (slice_to 500 (default (lit "No title") (i_title item))) = true
  ∧ binds fp = true.

(** The loop variables at the start of a call. *)
Definition start_of (db : DB) : SaveLoop :=
  {| the_db := db; domains := ∅; saved_count := 0 |}.

End Store.

(** ** main.py *)
Module Main.

(** [min(max(int(text), 10), 100)], and 25 when [int] raises ValueError. *)
Definition clamp_max_results (parsed : option Z) : Z :=
  match parsed with
  | Some n => Z.min (Z.max n 10) 100
  | None => 25
  end.

(** [min(max(int(text), 1), 3)], and 1 when [int] raises ValueError. *)
Definition clamp_depth (parsed : option Z) : Z :=
  match parsed with
  | Some n => Z.min (Z.max n 1) 3
  | None => 1
  end.

End Main.

(** ** Measures on histories and small worlds to run the code in *)
Module Model.
Import Scraper Store.

Definition is_renew (e : event) : bool :=
  match e with EvRenewIdentity _ => true | _ => false end.

Definition is_get (e : event) : bool :=
  match e with EvGet _ _ => true | _ => false end.

(** How often [renew_identity] was called, and how many GETs were sent. *)
Definition rotation_calls (h : history) : nat := length (List.filter is_renew h).
Definition get_calls (h : history) : nat := length (List.filter is_get h).

(** A transport that raises on the first two GETs and then serves [body]. *)
Definition fails_twice_then (e1 e2 : exn) (body : str)
    (control : history → bool) : Transport :=
  {| session_get := λ h _,
       match get_calls h with
       | 0%nat => NetErr e1
       | 1%nat => NetErr e2
       | _ => Resp 200 body
       end;
     control_port_ok := control |}.

(** A transport that answers every GET with the same status. *)
Definition always_status (status_code : Z) (body : str)
    (control : history → bool) : Transport :=
  {| session_get := λ _ _, Resp status_code body;
     control_port_ok := control |}.


(** Sets enumerated in the order of stdpp's [elements]. *)
Definition elements_order : SetOrder :=
  {| list_of_set := elements;
     list_of_set_perm := λ s, reflexivity (elements s) |}.

(** urljoin for absolute references; no netloc is refused. *)
Definition absolute_urls : UrlLib :=
  {| urljoin := λ _ href, Return href;
     checknetloc_raises := λ _, false;
     bracketed_netloc_raises := λ _, false |}.

(** Pages written as their hrefs, separated by blanks, and nothing else. *)
Definition href_pages : HtmlParser :=
  {| soup_title := λ _, None;
     soup_stripped_strings := λ html, [html];
     soup_anchors_left := λ html, map Some (split 32 html);
     soup_anchors := λ html, map Some (split 32 html) |}.

Definition frozen_env : Env :=
  {| strftime := λ _, lit "2024-01-01 00:00:00";
     randint_1_100 := λ i, S i |}.

(** Five sites in a row: site n links to site n+1, the last one to nothing.
    Every host has the 22 characters the validation asks for. *)
Definition site (n : nat) : str :=
  lit "http://nodeaaaaaaaaaaa" ++ str_of_nat n ++ lit ".onion/".

Definition chain_web : Transport :=
  {| session_get := λ _ url,
       if bool_decide (url = site 0) then Resp 200 (site 1)
       else if bool_decide (url = site 1) then Resp 200 (site 2)
       else if bool_decide (url = site 2) then Resp 200 (site 3)
       else if bool_decide (url = site 3) then Resp 200 (site 4)
       else if bool_decide (url = site 4) then Resp 200 (lit "end")
       else Resp 404 [];
     control_port_ok := λ _, true |}.

(** A cipher that hides nothing: the token is the nonce octet followed by
    the message. Enough to run the store. *)
Definition plain_fernet : Fernet.
Proof.
  refine {| cipher := bytes;
            generate_key := λ seed, [N.of_nat seed];
            new_cipher := λ key, Return key;
            fernet_encrypt := λ _ nonce m, N.of_nat nonce :: m;
            fernet_decrypt := λ _ token, match token with
                                         | _ :: m => Some m
                                         | [] => None
                                         end |}.
  - intros seed. eexists. reflexivity.
  - intros c nonce m. reflexivity.
Defined.

(** A digest that is the text itself, read as code points. *)
Definition identity_digest : Sha256 := {| sha256_hexdigest := λ b, b |}.

(** A stand-in for json: every code point brought below 128 between two
    quotes; decoding gives the text back. *)
Definition quoting_json : Json.
Proof.
  refine {| jvalue := str;
            json_dumps := λ s, 34 :: map (λ c, c mod 128) s ++ [34];
            json_loads := λ s, Some s |}.
  intros s. constructor; [lia |].
  apply Forall_app. split; [| repeat constructor; lia].
  apply Forall_forall. intros c Hc. apply list_elem_of_fmap in Hc as [d [-> _]].
  apply N.mod_lt. lia.
Defined.

(** A machine whose file operations never fail. *)
Definition quiet_os : Os.
Proof.
  refine {| urandom := λ seed n, replicate n (N.of_nat seed);
            db_file_size := λ d, (4096 + length (collected_data d))%nat;
            io_fails := λ _, false |}.
  intros seed n. apply length_replicate.
Defined.

(** An engine that orders with a merge sort. *)
Definition merge_order : SqlOrder.
Proof.
  refine {| order_by_timestamp_desc := merge_sort newer_or_same |}.
  - intros rows. apply merge_sort_Permutation.
  - intros rows. apply StronglySorted_merge_sort.
    + unfold newer_or_same. intros a b c ? ?. lia.
    + unfold newer_or_same. intros a b. lia.
Defined.

(** A store object over the cipher that hides nothing. *)
Definition plain_manager : @DataManager plain_fernet :=
  {| db_name := lit "darkweb_data.db";
     key_file := lit "data_key.key";
     the_cipher := [7] : @cipher plain_fernet |}.

(** Two readings of one page: the same url, the content changed. *)
Definition page_old : item :=
  {| i_type := Some (lit "page"); i_title := Some (lit "Market");
     i_url := Some (lit "http://abcdefghijklmnop.onion/p");
     i_content := Some (lit "old"); i_timestamp := None; i_links := Some 0%nat |}.

Definition page_new : item :=
  {| i_type := Some (lit "page"); i_title := Some (lit "Market");
     i_url := Some (lit "http://abcdefghijklmnop.onion/p");
     i_content := Some (lit "new"); i_timestamp := None; i_links := Some 0%nat |}.

Definition at_noon : SaveEnv :=
  {| now := 1200; current_timestamp := λ i, (1200 + Z.of_nat i)%Z; nonce_of := λ i, i |}.

(** Two records, stored one second apart. *)
Definition page_other : item :=
  {| i_type := Some (lit "page"); i_title := None;
     i_url := Some (lit "http://qrstuvwxyzabcdef.onion/");
     i_content := Some (lit "hello"); i_timestamp := None; i_links := None |}.

Definition two_records : DB :=
  snd (@save plain_fernet identity_digest quoting_json elements_order
         plain_manager at_noon empty_db [page_old; page_other]).

(** The store with two records on disk, beside its key. *)
Definition disk_with_store : FS :=
  {| files := {[ lit "darkweb_data.db" := Sqlite two_records;
                 lit "data_key.key" := Raw [7] ]};
     trace := [] |}.

End Model.

(** ** Bounds *)
Module Bounds.
Import Scraper.

(** The pages a crawl can collect over [levels] levels when no page hands on
    more than twenty links: one page and twenty crawls of one level less. *)
Fixpoint pages_bound (levels : nat) : nat :=
  match levels with
  | O => 0
  | S n => 1 + 20 * pages_bound n
  end.

(** How many slashes a string holds. *)
Definition slashes (s : str) : nat := length (List.filter (λ c, c =? 47) s).

Section Crawl.
Context `{UrlLib}.

(** Every collected item carries a URL that passes the validation. *)
Definition items_valid (st : Crawl) : Prop :=
  Forall (λ it, ∃ u, i_url it = Some u ∧ _validate_onion_url (this st) u = true)
         (results st).

(** What a crawl has collected when it starts is still there when it ends,
    in front, and the visited set has only grown. *)
Definition extends (st0 st : Crawl) : Prop :=
  (∃ more, results st = results st0 ++ more)
  ∧ visited_urls (this st0) ⊆ visited_urls (this st).

End Crawl.

End Bounds.


(** ** What a stored record looks like *)
Module Rows.
Import Store.

(** A record as [save] writes it: the title cut to 500 characters and the
    sensitivity flag at its default. *)
Definition row_ok (r : Row) : Prop :=
  (length (title r) ≤ 500)%nat ∧ is_sensitive r = 0%Z.

End Rows.


(** ** core/data_manager.py: statistics and export *)
Module Reports.
Import Store.

(** The characters that, outside a string in single quotes, start a token
    of SQLite in which a parenthesis would not count as one: a quoted
    identifier (double quote, backquote, bracket), a comment (minus, slash)
    or a variable (dollar, at, colon, hash). *)
Definition opens_other_token (c : N) : bool :=
  (c =? 34) || (c =? 96) || (c =? 91) || (c =? 45) || (c =? 47)
  || (c =? 36) || (c =? 64) || (c =? 58) || (c =? 35).

(** The parentheses of an SQL text written without those tokens, as SQLite's
    tokenizer counts them: every [(] and [)] outside the strings in single
    quotes. [Some true] when they match and no string is left open,
    [Some false] when they do not, [None] for a text this scan does not
    read. *)
Fixpoint paren_scan (in_quote : bool) (depth : nat) (q : str) : option bool :=
  match q with
  | [] => Some (negb in_quote && (depth =? 0)%nat)
  | c :: r =>
      if c =? 39 then paren_scan (negb in_quote) depth r
      else if in_quote then paren_scan in_quote depth r
      else if opens_other_token c then None
      else if c =? 40 then paren_scan false (S depth) r
      else if c =? 41 then
        match depth with
        | O => Some false
        | S d => paren_scan false d r
        end
      else paren_scan false depth r
  end.

Definition parens_balanced (q : str) : option bool := paren_scan false 0 q.

(** The SQL engine as [get_stats] uses it: whether [cursor.execute] accepts
    a text (it compiles as one statement, with nothing but blanks after it),
    and the number a counting statement gives on a table. Every rule of
    SQLite's grammar that opens a parenthesis closes it, so a text the scan
    reads and finds unmatched is not accepted. *)
Class SqlEngine : Type := {
  sql_parses : str → bool;
  sql_unmatched_refused : ∀ q, parens_balanced q = Some false → sql_parses q = false;
  run_count : str → list Row → nat
}.

(** The three statements of [get_stats], as the source has them between the
    quotes: the second and the third with their line breaks and indentation. *)
Definition total_query : str := lit "SELECT COUNT(*) FROM collected_data".
Definition domains_query : str :=
  [10] ++ lit "                SELECT COUNT(DISTINCT substr(url, 0, instr(substr(url, 9), '/'))"
  ++ [10] ++ lit "                FROM collected_data"
  ++ [10] ++ lit "            ".
Definition last_update_query : str :=
  [10] ++ lit "                SELECT MAX(timestamp) FROM collected_data"
  ++ [10] ++ lit "            ".

(** The dict [get_stats] returns; [last_updated] is [None] for 'Never'. *)
Record Stats : Type := {
  total : nat;
  domains_seen : nat;
  last_updated : option Z
}.

(** [MAX(timestamp)]: NULL on an empty table. *)
Definition max_timestamp (rows : list Row) : option Z :=
  match rows with
  | [] => None
  | r :: rest => Some (foldr (λ r' m, Z.max (timestamp r') m) (timestamp r) rest)
  end.

Section Stats.
Context `{SqlEngine}.

(** [cursor.execute(q)]: OperationalError for a statement that does not
    compile. *)
Definition execute (q : str) : outcome unit :=
  if sql_parses q then Return () else Raise DatabaseError.

(** [get_stats()] on a database whose tables exist. *)
Definition get_stats (db : DB) : outcome Stats :=
  match execute total_query with
  | Raise e => Raise e
  | Return _ =>
      let total := length (collected_data db) in
      match execute domains_query with
      | Raise e => Raise e
      | Return _ =>
          let domains := run_count domains_query (collected_data db) in
          match execute last_update_query with
          | Raise e => Raise e
          | Return _ =>
              Return {| total := total; domains_seen := domains;
                        last_updated := max_timestamp (collected_data db) |}
          end
      end
  end.

End Stats.

(** json.dump and csv.DictWriter on the loaded records: the text that
    reached the file, and the exception that stopped the writing, if any. *)
Class Dumper `{Json} : Type := {
  json_dump : list (Row * cell) → bytes * option exn;
  csv_dump : list (Row * cell) → bytes * option exn
}.

Section Exporting.
Context `{Fernet, Json, SqlOrder, Os, !Dumper}.

(** The body of a [with open(output_file, 'w')] block that writes [dumped]. *)
Definition write_dump (output_file : str) (dumped : bytes * option exn) : io bool :=
  write output_file (fst dumped);;
  match snd dumped with
  | Some e => io_raise e
  | None => mret true
  end.

(** [export(output_file, format)]: the records come from [load] with its
    default limit of 100. *)
Definition export (self : DataManager) (output_file format : str) : io bool :=
  data ← load_file self 100 true;
  if bool_decide (lower format = lit "json") then
    open_wb output_file;;
    write_dump output_file (json_dump data)
  else if bool_decide (lower format = lit "csv") then
    open_wb output_file;;
    match data with
    | [] => io_raise IndexError          (* data[0] *)
    | _ :: _ => write_dump output_file (csv_dump data)
    end
  else mret false.

End Exporting.

End Reports.


(** ** main.py: the menu entry that crawls and stores *)
Module Menu.
Import Scraper Store.

Section ScrapeSite.
Context `{Transport, HtmlParser, UrlLib, Env, SetOrder, Fernet, Sha256, Json}.

(** [DarkWebGatherer._scrape_site]: [onion_url] is the address typed in,
    stripped; [depth_input] is what [int] made of the depth typed in, [None]
    for ValueError. The result is the outcome with the scraper, the history
    and the database afterwards; [None] only if the crawl ran out of fuel. *)
Definition _scrape_site (scraper : OnionScraper) (data_manager : DataManager)
    (env : SaveEnv) (onion_url : str) (depth_input : option Z)
    (h : history) (db : DB)
  : option (outcome unit * OnionScraper * history * DB) :=
  if negb (endswith onion_url (lit ".onion"))
  then Some (Return (), scraper, h, db)
  else
    let depth := Main.clamp_depth depth_input in
    match scrape scraper onion_url depth h with
    | None => None
    | Some (Raise e, scraper', h') => Some (Raise e, scraper', h', db)
    | Some (Return results, scraper', h') =>
        Some (Return (), scraper', h', snd (save data_manager env db results))
    end.

End ScrapeSite.

End Menu.

(** ** core/tor_controller.py: the Tor process and the connection test *)
Module Tor.
Import Scraper.

(** What the controller does to the Tor process, in order. *)
Inductive tor_event : Type :=
| TorLaunch                 (* launch_tor_with_config(...) *)
| TorSleep (seconds : nat)  (* time.sleep(n) *)
| TorTerminate (p : nat)    (* tor_process.terminate() *)
| TorWait (p : nat).        (* tor_process.wait() *)

(** The machine: what a launch gives (a process handle or an exception, the
    making of the configuration included) and whether terminate raises. *)
Class TorDaemon : Type := {
  launch_tor_with_config : list tor_event → outcome nat;
  terminate_raises : list tor_event → bool
}.

(** The attribute of the controller that changes. *)
Record TorController : Type := { tor_process : option nat }.

Section Process.
Context `{TorDaemon}.

(** [stop_tor]: the handle is dropped in the [finally], also when terminate
    raised. *)
Definition stop_tor (self : TorController) (log : list tor_event)
  : TorController * list tor_event :=
  match tor_process self with
  | Some p =>
      if terminate_raises log
      then ({| tor_process := None |}, log ++ [TorTerminate p])
      else ({| tor_process := None |}, log ++ [TorTerminate p; TorWait p])
  | None => (self, log)
  end.

(** [start_tor] *)
Definition start_tor (self : TorController) (log : list tor_event)
  : bool * (TorController * list tor_event) :=
  match tor_process self with
  | Some _ => (true, (self, log))
  | None =>
      match launch_tor_with_config log with
      | Return p => (true, ({| tor_process := Some p |}, log ++ [TorLaunch; TorSleep 10]))
      | Raise _ => (false, stop_tor self (log ++ [TorLaunch]))
      end
  end.

End Process.

(** [needle in hay] *)
Fixpoint contains (needle hay : str) : bool :=
  startswith hay needle ||
  match hay with
  | [] => false
  | _ :: rest => contains needle rest
  end.

(** What a test URL answers: the text of the response and what
    [response.json().get('IsTor', False)] gives, which may raise. *)
Record check_response : Type := {
  check_text : str;
  is_tor : outcome bool
}.

Class CheckNet : Type := {
  check_get : nat → str → outcome check_response
}.

Definition test_urls : list str :=
  [lit "https://check.torproject.org/api/ip"; lit "http://icanhazip.com"].

Section Test.
Context `{CheckNet}.

(** The loop of [test_connection] from the [k]-th request on. *)
Fixpoint test_from (k : nat) (urls : list str) : bool :=
  match urls with
  | [] => true
  | url :: rest =>
      match check_get k url with
      | Raise _ => false
      | Return response =>
          if contains (lit "check.torproject.org") url then
            match is_tor response with
            | Raise _ => false
            | Return false => false
            | Return true => test_from (S k) rest
            end
          else test_from (S k) rest
      end
  end.

Definition test_connection : bool := test_from 0 test_urls.

End Test.

End Tor.

(** ** The first version: core/onion_scraper.py and main.py *)
Module V1.
Import Scraper.

(** requests.get through the proxy, by the number of the request, and
    whether the proxy port accepts a connection. *)
Class Web : Type := {
  requests_get : nat → str → response;
  proxy_listening : bool
}.

Definition onion_sites : list str := [lit "http://y6xjgkgwj47us5ca.onion"].

Section Gather.
Context `{Web}.

(** [OnionScraper.scrape_site]: the text of an answer 200, [None] for any
    other status and for a RequestException; any other exception of
    requests.get goes on to the caller. *)
Definition scrape_site (k : nat) (url : str) : outcome (option str) :=
  match requests_get k url with
  | Resp status_code text =>
      if (status_code =? 200)%Z then Return (Some text) else Return None
  | NetErr (RequestException _) => Return None
  | NetErr e => Raise e
  end.

(** The loop of [main] over the sites, from the [k]-th request on: an entry
    with the first 300 characters for every site with content. *)
Fixpoint gather (k : nat) (sites : list str) : outcome (list (str * str)) :=
  match sites with
  | [] => Return []
  | url :: rest =>
      match scrape_site k url with
      | Raise e => Raise e
      | Return content =>
          match gather (S k) rest with
          | Raise e => Raise e
          | Return all_data =>
              match content with
              | Some (c :: text) => Return ((url, slice_to 300 (c :: text)) :: all_data)
              | _ => Return all_data
              end
          end
      end
  end.

(** [main]: what is handed to [save_to_json], [None] when Tor is not up. *)
Definition main : option (outcome (list (str * str))) :=
  if proxy_listening then Some (gather 0 onion_sites) else None.

End Gather.

End V1.


(** ** More small worlds *)
Module Model2.
Import Scraper Store Model Reports Menu Tor V1.

(** The crawl of the chain of sites to depth 2, and what it leaves. *)
Definition chain_scrape : option (outcome (list item) * OnionScraper * history) :=
  @scrape chain_web href_pages absolute_urls frozen_env elements_order
    Scraper.__init__ (site 0) 2 [].

Definition chain_items : list item :=
  match chain_scrape with
  | Some (Return items, _, _) => items
  | _ => []
  end.

Definition chain_scraper : OnionScraper :=
  match chain_scrape with
  | Some (_, scraper, _) => scraper
  | None => Scraper.__init__
  end.

Definition chain_history : history :=
  match chain_scrape with
  | Some (_, _, h) => h
  | None => []
  end.

(** A crawl that starts with one item already collected. *)
Definition chain_start : Crawl :=
  {| this := Scraper.__init__; results := [page_old]; net := [] |}.

Definition chain_end : Crawl :=
  match @_crawl chain_web href_pages absolute_urls frozen_env elements_order
          4 (site 0) 2 chain_start 0 with
  | Some st => st
  | None => chain_start
  end.

(** The first site under its bare address, as the menu wants it typed. *)
Definition hub : str := lit "http://nodeaaaaaaaaaaa0.onion".

Definition hub_web : Transport :=
  {| session_get := λ n url,
       if bool_decide (url = hub) then Resp 200 (site 1)
       else @session_get chain_web n url;
     control_port_ok := λ _, true |}.

(** The menu entry run on the bare address with the answer 2 for the depth. *)
Definition menu_run : option (outcome unit * OnionScraper * history * DB) :=
  @_scrape_site hub_web href_pages absolute_urls frozen_env elements_order
    plain_fernet identity_digest quoting_json
    Scraper.__init__ plain_manager at_noon hub (Some 2%Z) [] empty_db.

Definition menu_scraper : OnionScraper :=
  match menu_run with
  | Some (_, scraper, _, _) => scraper
  | None => Scraper.__init__
  end.

Definition menu_history : history :=
  match menu_run with
  | Some (_, _, h, _) => h
  | None => []
  end.

Definition menu_db : DB :=
  match menu_run with
  | Some (_, _, _, db) => db
  | None => empty_db
  end.


(** A page whose title is a lone surrogate. *)
Definition page_surrogate : item :=
  {| i_type := Some (lit "page"); i_title := Some [0xD800];
     i_url := Some (lit "http://abcdefghijklmnop.onion/s");
     i_content := Some (lit "text"); i_timestamp := None; i_links := Some 0%nat |}.

(** An item that lost its url. *)
Definition page_nowhere : item :=
  {| i_type := Some (lit "page"); i_title := None; i_url := None;
     i_content := Some (lit "text"); i_timestamp := None; i_links := None |}.

(** An engine that compiles exactly the statements with matched
    parentheses and counts rows. *)
Definition paren_engine : SqlEngine.
Proof.
  refine {| sql_parses := λ q, bool_decide (parens_balanced q = Some true);
            run_count := λ _ rows, length rows |}.
  intros q Hq. rewrite Hq. reflexivity.
Defined.

(** A dumper that writes the number of records and never fails. *)
Definition counting_dumper : @Dumper quoting_json :=
  {| json_dump := λ data, ([N.of_nat (length data)], None);
     csv_dump := λ data, ([N.of_nat (length data)], None) |}.

Definition empty_disk : FS := {| files := ∅; trace := [] |}.

(** A machine on which every file operation that can fail does. *)
Definition broken_os : Os.
Proof.
  refine {| urandom := λ seed n, replicate n (N.of_nat seed);
            db_file_size := λ d, length (collected_data d);
            io_fails := λ _, true |}.
  intros seed n. apply length_replicate.
Defined.

(** A machine on which Tor starts and stops without trouble. *)
Definition steady_daemon : TorDaemon :=
  {| launch_tor_with_config := λ _, Return 4711%nat;
     terminate_raises := λ _, false |}.

(** A network on which both test addresses answer through Tor. *)
Definition through_tor : CheckNet :=
  {| check_get := λ _ _, Return {| check_text := lit "10.0.0.1"; is_tor := Return true |} |}.

(** A web on which every address answers with a page of 400 characters. *)
Definition long_pages : Web :=
  {| requests_get := λ _ _, Resp 200 (replicate 400 120);
     proxy_listening := true |}.

End Model2.

(** * Properties *)

(** ** Link validation *)
Module ValidateFacts.
Import Scraper Model.

Example lit_abc : lit "abc" = [97; 98; 99].
Proof. reflexivity. Qed.

Example split_url :
  split 47 (lit "http://a.onion/x") = [lit "http:"; []; lit "a.onion"; lit "x"].
Proof. reflexivity. Qed.

Example lower_kelvin : lower [46; 77; 0x212A; 86] = lit ".mkv".
Proof. reflexivity. Qed.

Section Validate.
Context `{UrlLib}.

Lemma netloc_of_spec_example :
  urlparse (lit "http://abcdefghijklmnopqrstu.onion/x")
  = Return {| scheme := lit "http"; netloc := lit "abcdefghijklmnopqrstu.onion" |}.
Proof. reflexivity. Qed.

(** C4, as the code has it: the host of the spec's first example has 27
    characters, not 22, so the URL is out of scope; a host of 22 characters
    (16 before the suffix) is accepted; [short.onion] and [example.com] are
    out of scope; the blacklist matches a path that ends in [.exe], also on a
    URL that is in scope. *)
Theorem validate_examples :
  _validate_onion_url Scraper.__init__ (lit "http://abcdefghijklmnopqrstu.onion/x") = false
  ∧ length (lit "abcdefghijklmnopqrstu.onion") = 27%nat
  ∧ _validate_onion_url Scraper.__init__ (lit "http://abcdefghijklmnop.onion/x") = true
  ∧ _is_blacklisted Scraper.__init__ (lit "http://abcdefghijklmnop.onion/x") = false
  ∧ _validate_onion_url Scraper.__init__ (lit "http://short.onion/x") = false
  ∧ _validate_onion_url Scraper.__init__ (lit "https://example.com/x") = false
  ∧ _is_blacklisted Scraper.__init__ (lit "http://abcdefghijklmnopqrstu.onion/file.exe") = true
  ∧ _validate_onion_url Scraper.__init__ (lit "http://abcdefghijklmnop.onion/file.exe") = true
  ∧ _is_blacklisted Scraper.__init__ (lit "http://abcdefghijklmnop.onion/file.exe") = true.
Proof. repeat split; reflexivity. Qed.

End Validate.

(** C4 as stated fails: the URL the spec calls valid is refused. *)
Lemma spec_example_refused :
  @_validate_onion_url absolute_urls Scraper.__init__
    (lit "http://abcdefghijklmnopqrstu.onion/x") ≠ true.
Proof. vm_compute. discriminate. Qed.

End ValidateFacts.

(** ** The fetcher *)
Module FetchFacts.
Import Scraper Model.

Lemma rotation_calls_app h1 h2 :
  rotation_calls (h1 ++ h2) = (rotation_calls h1 + rotation_calls h2)%nat.
Proof. unfold rotation_calls. by rewrite List.filter_app, length_app. Qed.

Lemma get_calls_app h1 h2 :
  get_calls (h1 ++ h2) = (get_calls h1 + get_calls h2)%nat.
Proof. unfold get_calls. by rewrite List.filter_app, length_app. Qed.

Section Fetch.
Context `{Transport}.

(** One call of [renew_identity] is one rotation call, whatever the control
    port answers, and sends no GET. *)
Lemma renew_identity_history h :
  ∃ t, snd (renew_identity h) = h ++ t
       ∧ rotation_calls t = 1%nat ∧ get_calls t = 0%nat.
Proof.
  unfold renew_identity. destruct (control_port_ok h); eexists; simpl;
    (split; [reflexivity | split; reflexivity]).
Qed.




End Fetch.



(** C3. A transport that raises twice and then answers 200: the body is
    returned and [renew_identity] was called exactly twice. A transport that
    always answers 404: [None] after the first GET, no rotation call. *)
Theorem fetch_two_failures_then_success e1 e2 body control url :
  (∃ h, @_fetch_url (fails_twice_then e1 e2 body control) Scraper.__init__ url []
        = (Return (Some body), h)
        ∧ rotation_calls h = 2%nat ∧ get_calls h = 3%nat)
  ∧ (∃ h, @_fetch_url (always_status 404 body control) Scraper.__init__ url []
          = (Return None, h)
          ∧ rotation_calls h = 0%nat ∧ get_calls h = 1%nat).
Proof.
  split.
  - unfold _fetch_url. simpl. unfold renew_identity. simpl.
    destruct (control _); simpl; destruct (control _); simpl;
      eexists; (split; [reflexivity | split; reflexivity]).
  - eexists. split; [reflexivity | split; reflexivity].
Qed.

End FetchFacts.

(** ** The placeholder search *)
Module SearchFacts.
Import Scraper Model.

Section Search.
Context `{Env}.

(** C10. For a bound that is not negative, [search] returns exactly
    [min(max_results, 5)] items, so never more than five, each of type
    [search_result]; with the bound the menu passes on (10 to 100, or 25) that
    is five items. *)
Theorem search_returns_min_5 self query max_results h :
  (0 ≤ max_results)%Z →
  Z.of_nat (length (search self query max_results h)) = Z.min max_results 5
  ∧ (length (search self query max_results h) ≤ 5)%nat
  ∧ Forall (λ it, i_type it = Some (lit "search_result"))
           (search self query max_results h)
  ∧ ∀ parsed, length (search self query (Main.clamp_max_results parsed) h) = 5%nat.
Proof.
  intros Hpos. unfold search. rewrite !length_map, !length_seq.
  repeat split.
  - lia.
  - lia.
  - apply Forall_forall. intros it Hit.
    apply list_elem_of_fmap in Hit as (i & -> & _). reflexivity.
  - intros parsed. rewrite length_map, length_seq.
    unfold Main.clamp_max_results. destruct parsed; [| reflexivity].
    replace (Z.min (Z.min (Z.max z 10) 100) 5) with 5%Z by lia. reflexivity.
Qed.

End Search.

Lemma search_returns_min_5_witness :
  (0 ≤ 3)%Z
  ∧ Z.of_nat (length (@search frozen_env Scraper.__init__ (lit "market") 3 [])) = 3%Z.
Proof.
  split; [lia |].
  exact (proj1 (@search_returns_min_5 frozen_env Scraper.__init__ (lit "market") 3 []
                  ltac:(lia))).
Defined.

Example search_first_result :
  @search frozen_env Scraper.__init__ (lit "x") 1 []
  = [ {| i_type := Some (lit "search_result");
         i_title := Some (lit "Result for 'x' #1");
         i_url := Some (lit "http://simulated1.onion");
         i_content := Some (lit "Sample content containing x");
         i_timestamp := Some (lit "2024-01-01 00:00:00");
         i_links := None |} ].
Proof. reflexivity. Qed.

End SearchFacts.

(** ** The crawl engine *)
Module CrawlFacts.
Import Scraper Model.

Section Crawl.
Context `{Transport, HtmlParser, UrlLib, Env, SetOrder}.

(** A fetch that returns a body got it as the answer 200 of some GET. *)
Lemma fetch_attempts_served self url attempts : ∀ h html h',
  fetch_attempts self url attempts h = (Return (Some html), h') →
  ∃ h0, session_get h0 url = Resp 200 html.
Proof.
  induction attempts as [| attempt rest IH]; intros h html h' Hrun; [done |].
  simpl in Hrun.
  destruct (session_get (h ++ [EvUserAgent; EvDelay]) url) as [status_code text | e] eqn:Hr.
  - destruct (Z.eqb_spec status_code 200) as [-> |].
    + exists (h ++ [EvUserAgent; EvDelay]). congruence.
    + by destruct ((status_code =? 403)%Z || (status_code =? 404)%Z).
  - destruct (attempt =? max_retries self - 1)%nat; [done |]. by eapply IH.
Qed.

Lemma crawl_ok_net bl seed depth st h :
  crawl_ok bl seed depth st →
  crawl_ok bl seed depth {| this := this st; results := results st; net := h |}.
Proof. intros [? ? ?]. by constructor. Qed.

Lemma crawl_ok_visit bl seed depth st url h :
  crawl_ok bl seed depth st →
  crawl_ok bl seed depth
    {| this := visit url (this st); results := results st; net := h |}.
Proof.
  intros [Hbl Hitems Hnd]. constructor; simpl; [done | | done].
  eapply Forall_impl; [exact Hitems |].
  intros it (u & n & ? & ? & ? & ?). exists u, n. set_solver.
Qed.

Lemma extract_page_data_url url html h page_data :
  _extract_page_data url html h = Return page_data → i_url page_data = Some url.
Proof.
  unfold _extract_page_data.
  destruct (match soup_title html with Some t => t | None => Some url end);
    [| done].
  by intros [= <-].
Qed.

(** The loop over the links keeps what each of its calls keeps. *)
Lemma crawl_links_keeps (P : Crawl → Prop) rec links :
  (∀ st h, P st → P {| this := this st; results := results st; net := h |}) →
  (∀ link st st', link ∈ links → P st → rec link st = Some st' → P st') →
  ∀ st st', P st → crawl_links rec links st = Some st' → P st'.
Proof.
  intros Hnet. induction links as [| link rest IH]; intros Hrec st st' HP Hrun.
  - simpl in Hrun. congruence.
  - simpl in Hrun.
    destruct (rec link _) as [st1 |] eqn:Hcall; [| done].
    eapply (IH (λ l s s' Hl, Hrec l s s' (list_elem_of_further _ _ _ Hl))); [| exact Hrun].
    eapply Hrec; [left | apply Hnet, HP | exact Hcall].
Qed.

Lemma crawl_keeps_ok bl seed depth fuel : ∀ url st current_depth st' n,
  hops bl seed n url → current_depth = Z.of_nat n →
  crawl_ok bl seed depth st →
  _crawl fuel url depth st current_depth = Some st' →
  crawl_ok bl seed depth st'.
Proof.
  induction fuel as [| fuel IH]; intros url st current_depth st' n Hhops -> Hok Hrun;
    [done |].
  simpl in Hrun.
  destruct (Z.gtb_spec (Z.of_nat n) depth) as [Hdeep | Hdepth];
    [simpl in Hrun; congruence |].
  destruct (bool_decide_reflect (url ∈ visited_urls (this st))) as [Hseen | Hnew];
    [simpl in Hrun; congruence |].
  simpl in Hrun.
  destruct (_fetch_url (visit url (this st)) url (net st)) as [[content | e] h] eqn:Hfetch.
  2: { injection Hrun as <-. by apply crawl_ok_visit. }
  destruct content as [[| c html] |].
  1, 3: injection Hrun as <-; by apply crawl_ok_visit.
  destruct (_extract_page_data url (c :: html) h) as [page_data | e] eqn:Hpage.
  2: { injection Hrun as <-. by apply crawl_ok_visit. }
  pose proof (extract_page_data_url _ _ _ _ Hpage) as Hurl.
  assert (crawl_ok bl seed depth
            {| this := visit url (this st); results := results st ++ [page_data]; net := h |})
    as Hok1.
  { destruct (crawl_ok_visit bl seed depth st url h Hok) as [Hbl Hitems Hnd].
    simpl in *. constructor; simpl.
    - done.
    - apply Forall_app. split; [done |]. constructor; [| done].
      exists url, n. repeat split; [done | set_solver | done | lia].
    - rewrite map_app. simpl. apply NoDup_app. split; [done |].
      split; [| apply NoDup_singleton].
      intros o Ho Ho'. apply list_elem_of_singleton in Ho'. subst o.
      apply list_elem_of_fmap in Ho as (it & Hit & Hin).
      destruct Hok as [_ Hold _]. rewrite Forall_forall in Hold.
      destruct (Hold it Hin) as (u & _ & Hu & Hseen & _).
      rewrite Hurl in Hit. rewrite Hu in Hit. injection Hit as <-. done. }
  destruct (Z.ltb_spec (Z.of_nat n) depth) as [Hless | Hlast].
  2: { injection Hrun as <-. exact Hok1. }
  destruct (_extract_links (visit url (this st)) url (c :: html)) as [links | e] eqn:Hlinks.
  2: { injection Hrun as <-. exact Hok1. }
  eapply (crawl_links_keeps (crawl_ok bl seed depth)); [| | exact Hok1 | exact Hrun].
  - intros. by apply crawl_ok_net.
  - intros link s s' Hlink Hs Hcall.
    eapply (IH link s (Z.of_nat n + 1)%Z s' (S n)); [| lia | exact Hs | exact Hcall].
    eapply hops_link; [exact Hhops |].
    destruct (fetch_attempts_served _ _ _ _ _ _ Hfetch) as [h0 Hserved].
    exists (visit url (this st)), h0, (c :: html), links.
    repeat split; [by destruct Hok | done | done | done].
Qed.

(** Enough fuel: one level for each depth the call can still reach. *)
Lemma crawl_links_returns rec links :
  (∀ link st, is_Some (rec link st)) → ∀ st, is_Some (crawl_links rec links st).
Proof.
  intros Hrec. induction links as [| link rest IH]; intros st; simpl; [done |].
  destruct (Hrec link {| this := this st; results := results st; net := net st ++ [EvDelay] |})
    as [st1 ->].
  apply IH.
Qed.

Lemma crawl_returns depth fuel : ∀ url st current_depth,
  (Z.to_nat (depth + 1 - current_depth) < fuel)%nat →
  is_Some (_crawl fuel url depth st current_depth).
Proof.
  induction fuel as [| fuel IH]; intros url st current_depth Hfuel; [lia |].
  simpl.
  destruct (Z.gtb_spec current_depth depth); [done |].
  destruct (bool_decide _); [done |]. simpl.
  destruct (_fetch_url _ _ _) as [[[[| c html] |] | e] h]; try done.
  destruct (_extract_page_data _ _ _); [| done].
  destruct (Z.ltb_spec current_depth depth); [| done].
  destruct (_extract_links _ _ _); [| done].
  apply crawl_links_returns. intros link st1. apply IH. lia.
Qed.

(** A fetch looks at the scraper for its budget of attempts only. *)
Lemma fetch_attempts_same self1 self2 url attempts : ∀ h,
  max_retries self1 = max_retries self2 →
  fetch_attempts self1 url attempts h = fetch_attempts self2 url attempts h.
Proof.
  induction attempts as [| attempt rest IH]; intros h Hsame; [done |].
  simpl. rewrite Hsame.
  destruct (session_get _ url); [done |].
  destruct (attempt =? max_retries self2 - 1)%nat; [done |]. by apply IH.
Qed.

Lemma fetch_url_same self1 self2 url h :
  max_retries self1 = max_retries self2 →
  _fetch_url self1 url h = _fetch_url self2 url h.
Proof.
  intros Hsame. unfold _fetch_url. rewrite Hsame. by apply fetch_attempts_same.
Qed.

Lemma replay_same self1 self2 steps : ∀ h,
  max_retries self1 = max_retries self2 →
  replay self1 steps h = replay self2 steps h.
Proof.
  induction steps as [| [| u] rest IH]; intros h Hsame; simpl; [done | by apply IH |].
  rewrite (fetch_url_same self1 self2 u h Hsame). by apply IH.
Qed.

Lemma replay_app self steps1 steps2 h :
  replay self (steps1 ++ steps2) h = replay self steps2 (replay self steps1 h).
Proof.
  revert h. induction steps1 as [| [| u] rest IH]; intros h; simpl; [done | apply IH..].
Qed.

Lemma fetched_urls_app steps1 steps2 :
  fetched_urls (steps1 ++ steps2) = fetched_urls steps1 ++ fetched_urls steps2.
Proof. unfold fetched_urls. apply omap_app. Qed.

(** A call that did nothing, and two calls in a row. *)
Lemma crawl_log_nil bl seed depth st : crawl_log bl seed depth st st [].
Proof.
  constructor; simpl.
  - done.
  - apply NoDup_nil_2.
  - intros u. split; [by left | intros [? | []%elem_of_nil]; done].
  - intros u []%elem_of_nil.
  - constructor.
  - done.
  - done.
Qed.

Lemma crawl_log_app bl seed depth st0 st1 st2 steps1 steps2 :
  crawl_log bl seed depth st0 st1 steps1 →
  crawl_log bl seed depth st1 st2 steps2 →
  crawl_log bl seed depth st0 st2 (steps1 ++ steps2).
Proof.
  intros [Hnet1 Hnd1 Hvis1 Hnew1 Hhops1 Hmax1 Hbl1] [Hnet2 Hnd2 Hvis2 Hnew2 Hhops2 Hmax2 Hbl2].
  constructor.
  - rewrite replay_app, <- Hnet1, Hnet2. by apply replay_same.
  - rewrite fetched_urls_app. apply NoDup_app. split; [done |]. split; [| done].
    intros u Hu1 Hu2. apply (Hnew2 u Hu2). apply Hvis1. by right.
  - intros u. rewrite fetched_urls_app, elem_of_app, Hvis2, Hvis1. tauto.
  - intros u. rewrite fetched_urls_app, elem_of_app. intros [Hu | Hu]; [by apply Hnew1 |].
    intros Hseen. apply (Hnew2 u Hu). apply Hvis1. by left.
  - rewrite fetched_urls_app. by apply Forall_app.
  - congruence.
  - congruence.
Qed.

(** The pause of the link loop. *)
Lemma crawl_log_pause bl seed depth st :
  crawl_log bl seed depth st
    {| this := this st; results := results st; net := net st ++ [EvDelay] |} [Pause].
Proof.
  constructor; simpl.
  - done.
  - apply NoDup_nil_2.
  - intros u. split; [by left | intros [? | []%elem_of_nil]; done].
  - intros u []%elem_of_nil.
  - constructor.
  - done.
  - done.
Qed.

(** The visit of a URL that is new and not too deep, whatever it collected. *)
Lemma crawl_log_visit bl seed depth st url n items :
  hops bl seed n url → (Z.of_nat n ≤ depth)%Z → url ∉ visited_urls (this st) →
  crawl_log bl seed depth st
    {| this := visit url (this st); results := items;
       net := snd (_fetch_url (visit url (this st)) url (net st)) |} [Fetch url].
Proof.
  intros Hhops Hdepth Hnew. constructor; simpl.
  - by apply f_equal, fetch_url_same.
  - apply NoDup_singleton.
  - intros u. rewrite elem_of_union, list_elem_of_singleton, elem_of_singleton. tauto.
  - intros u ->%list_elem_of_singleton. done.
  - constructor; [| constructor]. by exists n.
  - done.
  - done.
Qed.

(** The loop over the links: the steps of its calls, a pause before each. *)
Lemma crawl_links_log bl seed depth rec links :
  (∀ link st st', link ∈ links → blacklist (this st) = bl → rec link st = Some st' →
                  ∃ steps, crawl_log bl seed depth st st' steps) →
  ∀ st st', blacklist (this st) = bl → crawl_links rec links st = Some st' →
            ∃ steps, crawl_log bl seed depth st st' steps.
Proof.
  induction links as [| link rest IH]; intros Hrec st st' Hbl Hrun; simpl in Hrun.
  - injection Hrun as <-. exists []. apply crawl_log_nil.
  - destruct (rec link _) as [st1 |] eqn:Hcall; [| done].
    destruct (Hrec link {| this := this st; results := results st;
                           net := net st ++ [EvDelay] |} st1 ltac:(left) Hbl Hcall)
      as [steps1 Hlog1].
    assert (blacklist (this st1) = bl) as Hbl1
      by (destruct Hlog1 as [_ _ _ _ _ _ Hsame]; simpl in Hsame; congruence).
    destruct (IH (λ l s s' Hl, Hrec l s s' (list_elem_of_further _ _ _ Hl)) _ _ Hbl1 Hrun)
      as [steps2 Hlog2].
    exists ([Pause] ++ steps1 ++ steps2).
    eapply crawl_log_app; [apply crawl_log_pause |].
    eapply crawl_log_app; [exact Hlog1 | exact Hlog2].
Qed.

(** Every call of [_crawl] has its log. *)
Lemma crawl_has_log bl seed depth fuel : ∀ url st current_depth st' n,
  hops bl seed n url → current_depth = Z.of_nat n →
  blacklist (this st) = bl →
  _crawl fuel url depth st current_depth = Some st' →
  ∃ steps, crawl_log bl seed depth st st' steps.
Proof.
  induction fuel as [| fuel IH]; intros url st current_depth st' n Hhops -> Hbl Hrun;
    [done |].
  simpl in Hrun.
  destruct (Z.gtb_spec (Z.of_nat n) depth) as [Hdeep | Hdepth].
  { simpl in Hrun. injection Hrun as <-. exists []. apply crawl_log_nil. }
  destruct (bool_decide_reflect (url ∈ visited_urls (this st))) as [Hseen | Hnew].
  { simpl in Hrun. injection Hrun as <-. exists []. apply crawl_log_nil. }
  simpl in Hrun.
  pose proof (λ items, crawl_log_visit bl seed depth st url n items Hhops Hdepth Hnew)
    as Hvisit.
  destruct (_fetch_url (visit url (this st)) url (net st)) as [[content | e] h] eqn:Hfetch;
    simpl in Hvisit.
  2: { injection Hrun as <-. by exists [Fetch url]. }
  destruct content as [[| c html] |].
  1, 3: injection Hrun as <-; by exists [Fetch url].
  destruct (_extract_page_data url (c :: html) h) as [page_data | e] eqn:Hpage.
  2: { injection Hrun as <-. by exists [Fetch url]. }
  destruct (Z.ltb_spec (Z.of_nat n) depth) as [Hless | Hlast].
  2: { injection Hrun as <-. by exists [Fetch url]. }
  destruct (_extract_links (visit url (this st)) url (c :: html)) as [links | e] eqn:Hlinks.
  2: { injection Hrun as <-. by exists [Fetch url]. }
  destruct (crawl_links_log bl seed depth
              (λ link s, _crawl fuel link depth s (Z.of_nat n + 1)%Z) links) with
    (st := {| this := visit url (this st); results := results st ++ [page_data]; net := h |})
    (st' := st') as [steps Hlog]; [| exact Hbl | exact Hrun |].
  - intros link s s' Hlink Hbls Hcall.
    eapply (IH link s (Z.of_nat n + 1)%Z s' (S n)); [| lia | exact Hbls | exact Hcall].
    eapply hops_link; [exact Hhops |].
    destruct (fetch_attempts_served _ _ _ _ _ _ Hfetch) as [h0 Hserved].
    exists (visit url (this st)), h0, (c :: html), links.
    repeat split; [done | done | done | done].
  - exists ([Fetch url] ++ steps).
    eapply crawl_log_app; [apply Hvisit | exact Hlog].
Qed.

(** C5. [scrape] returns, and an invalid seed raises ValueError. For a valid
    seed: every item it returns was fetched from a URL at most [depth] links
    away from the seed, each URL at most once, and that URL is in the visited
    set. The traversal itself is bounded in the same way: a call of [_crawl]
    for a URL that is in the visited set, or at a depth beyond [depth],
    returns at once and changes nothing; and the history after the crawl is
    the history before it with pauses and fetches run one after the other,
    where no URL is fetched twice, the URLs fetched are exactly the visited
    set, and each of them is at most [depth] links away from the seed, so a
    link is followed only from a page less than [depth] links away. *)
Theorem scrape_depth_invariant self seed depth h :
  (∀ fuel url st current_depth,
     (current_depth > depth)%Z ∨ url ∈ visited_urls (this st) →
     _crawl (S fuel) url depth st current_depth = Some st)
  ∧ ∃ r, scrape self seed depth h = Some r
         ∧ match r with
           | (Return items, self', h') =>
               _validate_onion_url self seed = true
               ∧ Forall (λ it, ∃ u n, i_url it = Some u
                                       ∧ u ∈ visited_urls self'
                                       ∧ hops (blacklist self) seed n u
                                       ∧ (Z.of_nat n ≤ depth)%Z) items
               ∧ NoDup (map i_url items)
               ∧ ∃ steps,
                   h' = replay self steps h
                   ∧ NoDup (fetched_urls steps)
                   ∧ (∀ u, u ∈ visited_urls self' ↔ u ∈ fetched_urls steps)
                   ∧ Forall (λ u, ∃ n, hops (blacklist self) seed n u
                                       ∧ (Z.of_nat n ≤ depth)%Z)
                       (fetched_urls steps)
           | (Raise e, self', h') =>
               _validate_onion_url self seed = false ∧ self' = self ∧ h' = h
           end.
Proof.
  split.
  { intros fuel url st current_depth Hguard. simpl.
    destruct Hguard as [Hdeep | Hseen].
    - by rewrite (proj2 (Z.gtb_gt _ _)) by lia.
    - rewrite (bool_decide_eq_true_2 _ Hseen). by rewrite orb_true_r. }
  unfold scrape. destruct (_validate_onion_url self seed) eqn:Hvalid; cbn [negb].
  2: { eexists. split; [reflexivity |]. done. }
  destruct (crawl_returns depth (crawl_fuel depth) seed
              {| this := clear_visited self; results := []; net := h |} 0%Z)
    as [st Hrun].
  { unfold crawl_fuel. replace (depth + 1 - 0)%Z with (depth + 1)%Z by lia. lia. }
  rewrite Hrun. eexists. split; [reflexivity |]. simpl.
  assert (crawl_ok (blacklist self) seed depth st) as [_ Hitems Hnd].
  { eapply (crawl_keeps_ok _ _ _ _ _ _ _ _ 0%nat); [constructor | done | | exact Hrun].
    constructor; simpl; [done | constructor | constructor]. }
  destruct (crawl_has_log (blacklist self) seed depth (crawl_fuel depth) seed
              {| this := clear_visited self; results := []; net := h |} 0%Z st 0%nat
              (hops_seed _ _) eq_refl eq_refl Hrun)
    as [steps [Hnet Hnodup Hvisited _ Hhops _ _]].
  simpl in Hnet, Hvisited.
  split; [done |]. split; [exact Hitems |]. split; [exact Hnd |].
  exists steps. split; [| split; [exact Hnodup | split; [| exact Hhops]]].
  - rewrite Hnet. by apply replay_same.
  - intros u. rewrite Hvisited. split; [intros [[]%elem_of_empty | ?]; done | by right].
Qed.

End Crawl.

Lemma scrape_depth_invariant_witness :
  ∃ items self' h' steps,
    @scrape chain_web href_pages absolute_urls frozen_env elements_order
      Scraper.__init__ (site 0) 2 [] = Some (Return items, self', h')
    ∧ h' = @replay chain_web Scraper.__init__ steps []
    ∧ NoDup (fetched_urls steps)
    ∧ (∀ u, u ∈ visited_urls self' ↔ u ∈ fetched_urls steps).
Proof.
  destruct (proj2 (@scrape_depth_invariant chain_web href_pages absolute_urls frozen_env
                     elements_order Scraper.__init__ (site 0) 2 []))
    as ([[[items | e] self'] h'] & Hrun & Hres).
  - destruct Hres as (_ & _ & _ & steps & Hnet & Hnodup & Hvisited & _).
    exists items, self', h', steps.
    split; [exact Hrun |]. split; [exact Hnet |]. split; [exact Hnodup | exact Hvisited].
  - exfalso. destruct Hres as [Hvalid _]. vm_compute in Hvalid. discriminate Hvalid.
Defined.

(** The chain of five sites crawled to depth 2: the seed and the two sites
    behind it, nothing from hop 3 or 4. *)
Example scrape_chain_depth_2 :
  match @scrape chain_web href_pages absolute_urls frozen_env elements_order
          Scraper.__init__ (site 0) 2 [] with
  | Some (Return items, _, _) => map i_url items = [Some (site 0); Some (site 1); Some (site 2)]
  | _ => False
  end.
Proof. vm_compute. reflexivity. Qed.

End CrawlFacts.

(** ** UTF-8 and the encryption of content *)
Module CodecFacts.
Import Store Model.

Ltac Zify.zify_post_hook ::= Z.to_euclidean_division_equations.

(** Settle one comparison of the decoder from the bounds in the context. *)
Ltac settle_test :=
  match goal with
  | |- context [N.ltb ?a ?b] =>
      first [ rewrite (proj2 (N.ltb_lt a b)) by lia
            | rewrite (proj2 (N.ltb_ge a b)) by lia ]
  | |- context [N.leb ?a ?b] =>
      first [ rewrite (proj2 (N.leb_le a b)) by lia
            | rewrite (proj2 (N.leb_gt a b)) by lia ]
  end.

Ltac run_decode :=
  cbn [app decode]; unfold is_cont, is_surrogate; cbv zeta;
  repeat (settle_test; cbn [andb negb]).

(** The decoder reads back the octets of one code point. *)
Lemma decode_encode_cp c bs r :
  encode_cp c = Some bs → decode (bs ++ r) = cons c <$> decode r.
Proof.
  unfold encode_cp, is_surrogate.
  destruct (N.ltb_spec c 0x80).
  { intros [= <-]. run_decode. done. }
  destruct (N.ltb_spec c 0x800).
  { intros [= <-]. run_decode. f_equal. f_equal. lia. }
  destruct (N.ltb_spec c 0x10000).
  { destruct (N.leb_spec 0xD800 c); destruct (N.leb_spec c 0xDFFF); cbn [andb];
      intros [= <-]; run_decode; f_equal; f_equal; lia. }
  destruct (N.ltb_spec c 0x110000); [| done].
  intros [= <-]. run_decode. f_equal. f_equal. lia.
Qed.

Lemma decode_encode s : ∀ pos b, encode_from pos s = Return b → decode b = Some s.
Proof.
  induction s as [| c s IH]; intros pos b; simpl.
  - by intros [= <-].
  - destruct (encode_cp c) as [bs |] eqn:Hc; [| done].
    destruct (encode_from (S pos) s) as [r | e] eqn:Hs; [| done].
    intros [= <-]. rewrite (decode_encode_cp _ _ _ Hc), (IH _ _ Hs). done.
Qed.

Lemma encode_cp_some c : is_Some (encode_cp c) ↔ c < 0x110000 ∧ is_surrogate c = false.
Proof.
  unfold encode_cp, is_surrogate.
  destruct (N.ltb_spec c 0x80).
  { split; [intros _ | done]. split; [lia |].
    destruct (N.leb_spec 0xD800 c); [lia | done]. }
  destruct (N.ltb_spec c 0x800).
  { split; [intros _ | done]. split; [lia |].
    destruct (N.leb_spec 0xD800 c); [lia | done]. }
  destruct (N.ltb_spec c 0x10000).
  { destruct (N.leb_spec 0xD800 c); destruct (N.leb_spec c 0xDFFF); cbn [andb].
    - split; [by intros [? ?] | by intros [_ ?]].
    - split; [intros _ | done]. split; [lia | done].
    - split; [intros _ | done]. split; [lia | done].
    - split; [intros _ | done]. split; [lia | done]. }
  destruct (N.ltb_spec c 0x110000).
  { split; [intros _ | done]. split; [lia |].
    destruct (N.leb_spec 0xD800 c); destruct (N.leb_spec c 0xDFFF); try done; lia. }
  split; [by intros [? ?] | intros [? _]; lia].
Qed.

(** [encode] returns exactly on the strings without a lone surrogate. *)
Lemma encode_returns s : ∀ pos, encodable s ↔ ∃ b, encode_from pos s = Return b.
Proof.
  unfold encodable. induction s as [| c s IH]; intros pos; simpl.
  - split; [by eexists | constructor].
  - rewrite Forall_cons, <- encode_cp_some, (IH (S pos)).
    destruct (encode_cp c) as [bs |].
    + destruct (encode_from (S pos) s) as [r | e].
      * split; [by eexists | intros _; split; by eexists].
      * split; [by intros [_ [? ?]] | by intros [? ?]].
    + split; [by intros [[? ?] _] | by intros [? ?]].
Qed.

Lemma encode_raises s : ∀ pos,
  ¬ encodable s → ∃ at_pos, encode_from pos s = Raise (UnicodeEncodeError at_pos).
Proof.
  induction s as [| c s IH]; intros pos Hbad; simpl.
  - destruct Hbad. constructor.
  - destruct (encode_cp c) as [bs |] eqn:Hc; [| by eexists].
    destruct (IH (S pos)) as [at_pos ->]; [| by eexists].
    intros Hs. apply Hbad. constructor; [| done].
    apply encode_cp_some. by rewrite Hc.
Qed.

Section RoundTrip.
Context `{Fernet}.

(** C8, as the code has it: for every content string that UTF-8 can encode
    (every string without a lone surrogate code point, the empty string and
    long strings among them) decrypting the encryption gives the string
    back; for a string with a lone surrogate [_encrypt_data] raises
    UnicodeEncodeError and there is nothing to decrypt. *)
Theorem decrypt_encrypt_round_trip self nonce x :
  (encodable x →
   ∃ token, _encrypt_data self nonce (inl x) = Return token
            ∧ _decrypt_data self token = Return x)
  ∧ (¬ encodable x →
     ∃ at_pos, _encrypt_data self nonce (inl x) = Raise (UnicodeEncodeError at_pos)).
Proof.
  unfold _encrypt_data, _decrypt_data, encode. split.
  - intros Hx. apply (encode_returns x 0%nat) in Hx as [b Hb]. rewrite Hb.
    eexists. split; [reflexivity |].
    by rewrite fernet_round_trip, (decode_encode _ _ _ Hb).
  - intros Hx. destruct (encode_raises x 0%nat Hx) as [at_pos ->]. by eexists.
Qed.

End RoundTrip.

Lemma decrypt_encrypt_round_trip_witness :
  ∃ token, @_encrypt_data plain_fernet plain_manager 1 (inl (lit "caf" ++ [0xE9; 0x20AC]))
           = Return token
           ∧ @_decrypt_data plain_fernet plain_manager token
             = Return (lit "caf" ++ [0xE9; 0x20AC]).
Proof.
  apply (proj1 (@decrypt_encrypt_round_trip plain_fernet plain_manager 1
                  (lit "caf" ++ [0xE9; 0x20AC]))).
  unfold encodable. repeat (constructor; [split; reflexivity |]). constructor.
Defined.

Example round_trip_empty :
  ∃ token, @_encrypt_data plain_fernet plain_manager 0 (inl []) = Return token
           ∧ @_decrypt_data plain_fernet plain_manager token = Return [].
Proof. eexists. split; reflexivity. Qed.

(** C8 as stated fails: a string that holds a lone surrogate is a Python
    string, and its encryption raises instead of giving a token. *)
Lemma lone_surrogate_not_encrypted :
  @_encrypt_data plain_fernet plain_manager 0 (inl [0x61; 0xD800])
  = Raise (UnicodeEncodeError 1).
Proof. reflexivity. Qed.

End CodecFacts.

(** ** The deduplicating store *)
Module StoreFacts.
Import Store Model.

Lemma filter_none {A} (p : A → bool) (l : list A) :
  (∀ a, a ∈ l → p a = false) → List.filter p l = [].
Proof.
  induction l as [| a l IH]; intros Hp; simpl; [done |].
  rewrite (Hp a) by left. apply IH. intros a' Ha'. apply Hp. by right.
Qed.

Lemma count_filter_nodup {A B} `{EqDecision B} (f : A → B) (b : B) (l : list A) :
  NoDup (map f l) → (length (List.filter (λ a, bool_decide (f a = b)) l) ≤ 1)%nat.
Proof.
  induction l as [| a l IH]; simpl; [lia |].
  intros Hnd. apply NoDup_cons in Hnd as [Hnotin Hnd].
  destruct (bool_decide_reflect (f a = b)) as [<- |]; [| by apply IH].
  simpl. rewrite filter_none; [simpl; lia |].
  intros a' Ha'. apply bool_decide_eq_false.
  intros Heq. apply Hnotin. rewrite <- Heq. by apply list_elem_of_fmap_2.
Qed.

Lemma count_filter_absent {A B} `{EqDecision B} (f : A → B) (b : B) (l : list A) :
  b ∉ map f l → length (List.filter (λ a, bool_decide (f a = b)) l) = 0%nat.
Proof.
  intros Hb. rewrite filter_none; [done |].
  intros a Ha. apply bool_decide_eq_false.
  intros <-. by apply Hb, list_elem_of_fmap_2.
Qed.

Lemma conflicts_true rows r :
  conflicts rows r = true
  ↔ url r ∈ map url rows ∨ source_hash r ∈ map source_hash rows.
Proof.
  unfold conflicts. rewrite existsb_exists. split.
  - intros (r' & Hin & Hkey). apply list_elem_of_In in Hin.
    apply orb_true_iff in Hkey as [Hk | Hk]; apply bool_decide_eq_true in Hk;
      [left | right]; rewrite <- Hk; by apply list_elem_of_fmap_2.
  - intros [Hin | Hin]; apply list_elem_of_fmap in Hin as (r' & Heq & Hin);
      exists r'; (split; [by apply list_elem_of_In |]); apply orb_true_iff;
      [left | right]; by apply bool_decide_eq_true.
Qed.

Lemma conflicts_false rows r :
  conflicts rows r = false
  ↔ (url r ∉ map url rows) ∧ (source_hash r ∉ map source_hash rows).
Proof.
  rewrite <- not_true_iff_false, conflicts_true. tauto.
Qed.

Lemma unique_keys_insert db r :
  unique_keys db → conflicts (collected_data db) r = false →
  unique_keys {| collected_data := collected_data db ++ [r];
                 scan_metadata := scan_metadata db |}.
Proof.
  intros [Hu Hh] [Hur Hhr]%conflicts_false. unfold unique_keys. simpl.
  rewrite !map_app. simpl. split; apply NoDup_app; (split; [done |]);
    (split; [| apply NoDup_singleton]); intros x Hx Hx';
    apply list_elem_of_singleton in Hx'; by subst x.
Qed.

(** A text whose front cannot be encoded cannot be encoded. *)
Lemma encode_from_prefix a b : ∀ pos r,
  encode_from pos (a ++ b) = Return r → ∃ ra, encode_from pos a = Return ra.
Proof.
  induction a as [| c a IH]; intros pos r Hr; simpl in *; [by eexists |].
  destruct (encode_cp c) as [bs |]; [| done].
  destruct (encode_from (S pos) (a ++ b)) as [r' | e] eqn:Hrest; [| done].
  destruct (IH _ _ Hrest) as [ra ->]. by eexists.
Qed.

(** The url of an item that has a fingerprint can be bound. *)
Lemma fingerprint_binds_url `{Sha256} item u fp :
  i_url item = Some u → fingerprint item = Return fp → binds u = true.
Proof.
  unfold fingerprint, binds, encode. intros -> Hfp. simpl in Hfp.
  destruct (encode_from 0 (u ++ default [] (i_content item))) as [b | e] eqn:Henc;
    [| done].
  by destruct (encode_from_prefix _ _ _ _ Henc) as [ra ->].
Qed.

Section Dedup.
Context `{Fernet, Sha256, Json, SetOrder}.

(** What one turn of the loop does to the table: nothing, or one new row
    that met no conflict, counted once. The metadata table is not touched. *)
Lemma save_item_effect self env st i item :
  scan_metadata (the_db (save_item self env st i item)) = scan_metadata (the_db st)
  ∧ ((collected_data (the_db (save_item self env st i item)) = collected_data (the_db st)
      ∧ saved_count (save_item self env st i item) = saved_count st)
     ∨ (∃ r, collected_data (the_db (save_item self env st i item))
              = collected_data (the_db st) ++ [r]
             ∧ saved_count (save_item self env st i item) = S (saved_count st)
             ∧ conflicts (collected_data (the_db st)) r = false
             ∧ insertable item (url r) (source_hash r))).
Proof.
  unfold save_item.
  destruct (fingerprint item) as [fp | e] eqn:Hfp; [| by split; [| left]].
  destruct (match i_content item with
            | Some (c :: s) => _
            | _ => Return None
            end) as [encrypted | e]; [| by split; [| left]].
  destruct (domain_of item) as [domain | e] eqn:Hdom; [| by split; [| left]].
  destruct (i_url item) as [u |] eqn:Hu; [| by split; [| left]].
  cbv zeta. cbn [data_type title url source_hash].
  destruct (binds _ && binds _ && binds u && binds fp) eqn:Hbinds;
    [| by split; [| left]].
  apply andb_true_iff in Hbinds as [[[Htype Htitle]%andb_true_iff _]%andb_true_iff Hhash].
  unfold insert_or_ignore.
  destruct (conflicts _ _) eqn:Hc; simpl.
  - split; [done |]. left. split; [done | lia].
  - split; [done |]. right. eexists. split; [reflexivity |].
    split; [lia |]. split; [exact Hc |]. simpl.
    split; [done |]. split; [done |]. split; [| done].
    unfold domain_of in Hdom. rewrite Hu in Hdom.
    by destruct (split 47 u !! 2%nat).
Qed.

Lemma save_item_unique self env st i item :
  unique_keys (the_db st) → unique_keys (the_db (save_item self env st i item)).
Proof.
  intros Hok. destruct (save_item_effect self env st i item) as [Hmeta [[Hrows _] | Hnew]].
  - unfold unique_keys in *. by rewrite Hrows.
  - destruct Hnew as (r & Hrows & _ & Hc & _).
    pose proof (unique_keys_insert _ r Hok Hc) as [? ?].
    unfold unique_keys. by rewrite Hrows.
Qed.

(** The loop: the keys stay unique, the table only grows, and
    [saved_count] counts the rows that were added. *)
Lemma save_loop_effect self env items : ∀ st i,
  scan_metadata (the_db (save_loop self env st i items)) = scan_metadata (the_db st)
  ∧ (unique_keys (the_db st) → unique_keys (the_db (save_loop self env st i items)))
  ∧ (∃ added, collected_data (the_db (save_loop self env st i items))
              = collected_data (the_db st) ++ added
              ∧ saved_count (save_loop self env st i items)
                = (saved_count st + length added)%nat).
Proof.
  induction items as [| item rest IH]; intros st i; simpl.
  - split; [done |]. split; [done |]. exists []. by rewrite app_nil_r, Nat.add_0_r.
  - destruct (IH (save_item self env st i item) (S i)) as (Hmeta & Hkeys & added & Hrows & Hcount).
    destruct (save_item_effect self env st i item) as [Hmeta1 Hstep].
    split; [congruence |].
    split; [intros Hok; by apply Hkeys, save_item_unique |].
    destruct Hstep as [[Hsame Hcnt] | (r & Hnew & Hcnt & _)].
    + exists added. rewrite Hrows, Hcount, Hsame, Hcnt. done.
    + exists (r :: added). rewrite Hrows, Hcount, Hnew, Hcnt, <- app_assoc. simpl.
      split; [done | lia].
Qed.

Lemma save_unique self env db items :
  unique_keys db → unique_keys (snd (save self env db items)).
Proof.
  intros Hok. unfold save. destruct items as [| item rest]; [done |].
  simpl snd. unfold unique_keys. simpl collected_data.
  by apply (save_loop_effect self env (item :: rest)
              {| the_db := db; domains := ∅; saved_count := 0 |} 0%nat).
Qed.

Lemma saves_unique self calls : ∀ db,
  unique_keys db → unique_keys (saves self calls db).
Proof.
  unfold saves. induction calls as [| call calls IH]; intros db Hok; simpl; [done |].
  by apply IH, save_unique.
Qed.

Lemma ascii_encodable s : Forall (λ c, c < 128) s → encodable s.
Proof.
  unfold encodable. intros Hs. eapply Forall_impl; [exact Hs |].
  intros c Hc. simpl in Hc. split; [lia |].
  unfold is_surrogate. destruct (N.leb_spec 0xD800 c); [lia | done].
Qed.

(** The content of an item is always encrypted: json.dumps gives ASCII. *)
Lemma encrypt_dumps_returns self nonce s :
  ∃ token, _encrypt_data self nonce (inl (json_dumps s)) = Return token.
Proof.
  unfold _encrypt_data, encode.
  destruct (proj1 (CodecFacts.encode_returns (json_dumps s) 0%nat)
              (ascii_encodable _ (json_dumps_ascii s))) as [b ->].
  by eexists.
Qed.

(** An insertable item whose keys are both new is stored. *)
Lemma save_item_fresh self env st i item u fp :
  insertable item u fp →
  u ∉ map url (collected_data (the_db st)) →
  fp ∉ map source_hash (collected_data (the_db st)) →
  ∃ r, collected_data (the_db (save_item self env st i item))
       = collected_data (the_db st) ++ [r]
       ∧ url r = u ∧ source_hash r = fp
       ∧ saved_count (save_item self env st i item) = S (saved_count st).
Proof.
  intros (Hu & Hfp & [d Hd] & Htype & Htitle & Hhash) Hnu Hnfp.
  pose proof (fingerprint_binds_url item u fp Hu Hfp) as Hurl.
  unfold save_item. rewrite Hfp.
  assert (∃ encrypted,
            match i_content item with
            | Some (c :: s) =>
                match _encrypt_data self (nonce_of env i) (inl (json_dumps (c :: s))) with
                | Return b => Return (Some b)
                | Raise e => Raise e
                end
            | _ => Return None
            end = Return encrypted) as [encrypted ->].
  { destruct (i_content item) as [[| c s] |]; try by eexists.
    destruct (encrypt_dumps_returns self (nonce_of env i) (c :: s)) as [token ->].
    by eexists. }
  unfold domain_of. rewrite Hu, Hd. cbv zeta. cbn [data_type title url source_hash].
  rewrite Htype, Htitle, Hurl, Hhash. cbn [andb]. unfold insert_or_ignore.
  rewrite (proj2 (conflicts_false _ _)) by done.
  eexists. split; [reflexivity |]. simpl. repeat split. lia.
Qed.

(** An item that meets one of its keys in the table changes nothing. *)
Lemma save_item_conflict self env st i item u fp :
  i_url item = Some u → fingerprint item = Return fp →
  u ∈ map url (collected_data (the_db st))
  ∨ fp ∈ map source_hash (collected_data (the_db st)) →
  collected_data (the_db (save_item self env st i item)) = collected_data (the_db st)
  ∧ saved_count (save_item self env st i item) = saved_count st.
Proof.
  intros Hu Hfp Hkey.
  destruct (save_item_effect self env st i item) as [_ [Hsame | Hnew]]; [done |].
  destruct Hnew as (r & _ & _ & [Hnu Hnfp]%conflicts_false & Hu' & Hfp' & _).
  rewrite Hu in Hu'. rewrite Hfp in Hfp'. injection Hu' as ->. injection Hfp' as ->.
  tauto.
Qed.

(** An item whose type or title cannot be bound changes nothing. *)
Lemma save_item_unbound self env st i item :
  binds (default (lit "unknown") (i_type item)) = false
  ∨ binds (slice_to 500 (default (lit "No title") (i_title item))) = false →
  collected_data (the_db (save_item self env st i item)) = collected_data (the_db st)
  ∧ saved_count (save_item self env st i item) = saved_count st.
Proof.
  intros Hbad.
  destruct (save_item_effect self env st i item) as [_ [Hsame | Hnew]]; [done |].
  destruct Hnew as (r & _ & _ & _ & _ & _ & _ & Htype & Htitle & _).
  destruct Hbad; congruence.
Qed.

Lemma save_one_rows self env db item :
  collected_data (snd (save self env db [item]))
  = collected_data (the_db (save_item self env (start_of db) 0%nat item)).
Proof. reflexivity. Qed.

Lemma save_two_rows self env db item1 item2 :
  collected_data (snd (save self env db [item1; item2]))
  = collected_data
      (the_db (save_item self env (save_item self env (start_of db) 0%nat item1)
                 1%nat item2)).
Proof. reflexivity. Qed.

(** C1, as the code has it. After any sequence of [save] calls there is at
    most one record per fingerprint and at most one per url. An item the
    INSERT accepts (it has a url with a host part, and its type, its title
    and its fingerprint can be encoded) and whose url and fingerprint are
    both new is stored exactly once, however often it is saved: twice in two
    calls, or twice in one batch, the table grows by one. An item that meets
    a stored url or a stored fingerprint is skipped without an error: the
    table is as before and [save] returns [False]. So is an item whose type
    or title cannot be encoded, a lone surrogate in it: the INSERT raises,
    the loop goes on, and the item is never stored. *)
Theorem dedup_guarantee self :
  (∀ db calls fp u,
     unique_keys db →
     (count_fingerprint fp (saves self calls db) ≤ 1)%nat
     ∧ (count_url u (saves self calls db) ≤ 1)%nat)
  ∧ (∀ db env1 env2 item u fp,
       insertable item u fp →
       u ∉ map url (collected_data db) →
       fp ∉ map source_hash (collected_data db) →
       length (collected_data (snd (save self env2 (snd (save self env1 db [item])) [item])))
       = S (length (collected_data db))
       ∧ count_fingerprint fp (snd (save self env2 (snd (save self env1 db [item])) [item]))
         = 1%nat
       ∧ length (collected_data (snd (save self env1 db [item; item])))
         = S (length (collected_data db)))
  ∧ (∀ db env item u fp,
       i_url item = Some u → fingerprint item = Return fp →
       u ∈ map url (collected_data db) ∨ fp ∈ map source_hash (collected_data db) →
       save self env db [item]
       = (false, {| collected_data := collected_data db;
                    scan_metadata := scan_metadata (snd (save self env db [item])) |}))
  ∧ (∀ db env item,
       binds (default (lit "unknown") (i_type item)) = false
       ∨ binds (slice_to 500 (default (lit "No title") (i_title item))) = false →
       save self env db [item]
       = (false, {| collected_data := collected_data db;
                    scan_metadata := scan_metadata (snd (save self env db [item])) |})).
Proof.
  split; [| split; [| split]].
  - intros db calls fp u Hok.
    destruct (saves_unique self calls db Hok) as [Hu Hh].
    split; [by apply count_filter_nodup | by apply count_filter_nodup].
  - intros db env1 env2 item u fp Hins Hnu Hnfp.
    destruct (save_item_fresh self env1 (start_of db) 0%nat item u fp Hins Hnu Hnfp)
      as (r & Hrows & Hur & Hfr & Hcnt).
    destruct Hins as (Hu & Hfp & Hhost & _).
    rewrite <- save_one_rows in Hrows.
    assert (u ∈ map url (collected_data (snd (save self env1 db [item])))) as Hseen.
    { rewrite Hrows, map_app. simpl. rewrite Hur. set_solver. }
    destruct (save_item_conflict self env2 (start_of (snd (save self env1 db [item])))
                0%nat item u fp Hu Hfp (or_introl Hseen)) as [Hagain _].
    rewrite <- save_one_rows in Hagain.
    change (the_db (start_of ?d)) with d in Hagain.
    split; [| split].
    + rewrite Hagain, Hrows, length_app. simpl. lia.
    + unfold count_fingerprint. rewrite Hagain, Hrows, List.filter_app, length_app.
      rewrite (count_filter_absent source_hash fp _ Hnfp). simpl.
      rewrite Hfr. by rewrite bool_decide_eq_true_2.
    + rewrite save_two_rows. rewrite save_one_rows in Hrows, Hseen.
      change (the_db (start_of db)) with db in Hrows.
      destruct (save_item_conflict self env1 (save_item self env1 (start_of db) 0%nat item)
                  1%nat item u fp Hu Hfp (or_introl Hseen)) as [-> _].
      rewrite Hrows, length_app. simpl. lia.
  - intros db env item u fp Hu Hfp Hkey.
    destruct (save_item_conflict self env (start_of db) 0%nat item u fp Hu Hfp Hkey)
      as [Hrows Hcnt].
    unfold save. simpl snd. simpl scan_metadata. unfold save_loop.
    fold (start_of db). rewrite Hrows, Hcnt. reflexivity.
  - intros db env item Hbad.
    destruct (save_item_unbound self env (start_of db) 0%nat item Hbad) as [Hrows Hcnt].
    unfold save. simpl snd. simpl scan_metadata. unfold save_loop.
    fold (start_of db). rewrite Hrows, Hcnt. reflexivity.
Qed.

End Dedup.

Lemma dedup_guarantee_witness :
  length (collected_data
            (snd (@save plain_fernet identity_digest quoting_json elements_order
                    plain_manager at_noon
                    (snd (@save plain_fernet identity_digest quoting_json elements_order
                            plain_manager at_noon empty_db [page_old]))
                    [page_old])))
  = 1%nat.
Proof.
  refine (proj1 (proj1 (proj2 (@dedup_guarantee plain_fernet identity_digest quoting_json
                                 elements_order plain_manager))
                   empty_db at_noon at_noon page_old
                   (lit "http://abcdefghijklmnop.onion/p")
                   (lit "http://abcdefghijklmnop.onion/pold") _ _ _)).
  - split; [reflexivity |]. split; [reflexivity |]. split; [eexists; reflexivity |].
    split; [reflexivity |]. split; reflexivity.
  - simpl. apply not_elem_of_nil.
  - simpl. apply not_elem_of_nil.
Defined.

(** C1 as stated fails: the new reading of a page whose old reading is
    stored is dropped on the url constraint. Saving it twice leaves the store
    at its size, and no record carries its fingerprint. *)
Lemma changed_page_never_stored :
  let save := @save plain_fernet identity_digest quoting_json elements_order
                plain_manager at_noon in
  let db1 := snd (save empty_db [page_old]) in
  let db3 := snd (save (snd (save db1 [page_new])) [page_new]) in
  @fingerprint identity_digest page_new = Return (lit "http://abcdefghijklmnop.onion/pnew")
  ∧ length (collected_data db1) = 1%nat
  ∧ length (collected_data db3) = 1%nat
  ∧ count_fingerprint (lit "http://abcdefghijklmnop.onion/pnew") db3 = 0%nat.
Proof. vm_compute. repeat split. Qed.

(** A page whose title is a lone surrogate is passed over: nothing is
    stored, and the batch is recorded with its domain and no item. *)
Example surrogate_title_not_stored :
  @save plain_fernet identity_digest quoting_json elements_order
    plain_manager at_noon empty_db [Model2.page_surrogate]
  = (false, {| collected_data := [];
               scan_metadata := [{| scan_start := 1200; scan_end := None;
                                    items_collected := 0;
                                    domains_scanned := lit "abcdefghijklmnop.onion" |}] |}).
Proof. vm_compute. reflexivity. Qed.

End StoreFacts.

(** ** Scan metadata *)
Module MetadataFacts.
Import Store Model StoreFacts.

Section Metadata.
Context `{Fernet, Sha256, Json, SetOrder}.

(** A domain in the set after one turn was there before or is the domain of
    the item of this turn. *)
Lemma save_item_domains self env st i item d :
  d ∈ domains (save_item self env st i item) →
  d ∈ domains st ∨ domain_of item = Return d.
Proof.
  unfold save_item.
  destruct (fingerprint item); [| by left].
  destruct (match i_content item with
            | Some (c :: s) => _
            | _ => Return None
            end); [| by left].
  destruct (domain_of item) as [domain |]; [| by left].
  destruct (i_url item); cbv zeta; cbn [data_type title url source_hash];
    [destruct (binds _ && binds _ && binds _ && binds _);
       [destruct (insert_or_ignore _ _) |] |];
    cbn [domains]; intros [? | ->%elem_of_singleton]%elem_of_union; auto.
Qed.

Lemma save_loop_domains self env items : ∀ st i d,
  d ∈ domains (save_loop self env st i items) →
  d ∈ domains st ∨ ∃ item, item ∈ items ∧ domain_of item = Return d.
Proof.
  induction items as [| item rest IH]; intros st i d; simpl; [by left |].
  intros [Hd | (it & Hit & Hdom)]%IH.
  - apply save_item_domains in Hd as [? | ?]; [by left |].
    right. exists item. split; [left | done].
  - right. exists it. split; [by right | done].
Qed.

(** C6, as the code has it. A call of [save] with an empty batch returns
    [False] at once and writes nothing, no metadata either. A call with a
    batch that is not empty appends exactly one ScanMetadata record after the
    loop, also when no item was stored: the start time, the number of records
    the call added, and at most ten distinct domains, each the domain of an
    item of the batch. *)
Theorem save_appends_one_metadata self env db items :
  save self env db [] = (false, db)
  ∧ (items ≠ [] →
     ∃ doms,
       scan_metadata (snd (save self env db items))
       = scan_metadata db ++
         [{| scan_start := now env;
             scan_end := None;
             items_collected :=
               (length (collected_data (snd (save self env db items)))
                - length (collected_data db))%nat;
             domains_scanned := join (lit ",") doms |}]
       ∧ fst (save self env db items)
         = bool_decide (length (collected_data db)
                        < length (collected_data (snd (save self env db items))))%nat
       ∧ (length doms ≤ 10)%nat
       ∧ NoDup doms
       ∧ ∀ d, d ∈ doms → ∃ item, item ∈ items ∧ domain_of item = Return d).
Proof.
  split; [reflexivity |].
  intros Hitems. destruct items as [| item rest]; [done |].
  unfold save.
  set (st := save_loop self env {| the_db := db; domains := ∅; saved_count := 0 |}
               0%nat (item :: rest)).
  destruct (save_loop_effect self env (item :: rest)
              {| the_db := db; domains := ∅; saved_count := 0 |} 0%nat)
    as (Hmeta & _ & added & Hrows & Hcount).
  fold st in Hmeta, Hrows, Hcount. simpl in Hmeta, Hrows, Hcount.
  exists (slice_to 10 (list_of_set (domains st))).
  cbn [snd fst collected_data scan_metadata].
  rewrite Hmeta, Hrows, Hcount, length_app. cbn [Nat.add].
  replace (length (collected_data db) + length added - length (collected_data db))%nat
    with (length added) by lia.
  split; [done |]. split.
  { apply bool_decide_ext. lia. }
  unfold slice_to. split; [rewrite length_take; lia |]. split.
  - eapply sublist_NoDup; [| apply sublist_take].
    rewrite list_of_set_perm. apply NoDup_elements.
  - intros d Hd. apply subseteq_take in Hd.
    rewrite list_of_set_perm in Hd. apply elem_of_elements in Hd.
    apply save_loop_domains in Hd as [Hd | Hd]; [| done].
    simpl in Hd. by apply not_elem_of_empty in Hd.
Qed.

End Metadata.

Lemma save_appends_one_metadata_witness :
  ∃ doms,
    scan_metadata
      (snd (@save plain_fernet identity_digest quoting_json elements_order
              plain_manager at_noon empty_db [page_old; page_old]))
    = [] ++ [{| scan_start := 1200; scan_end := None;
                items_collected := (1 - 0)%nat;
                domains_scanned := join (lit ",") doms |}].
Proof.
  destruct (proj2 (@save_appends_one_metadata plain_fernet identity_digest quoting_json
                     elements_order plain_manager at_noon empty_db
                     [page_old; page_old])) as (doms & Hmeta & _).
  - discriminate.
  - exists doms. exact Hmeta.
Defined.

Example metadata_of_duplicate_batch :
  let db1 := snd (@save plain_fernet identity_digest quoting_json elements_order
                    plain_manager at_noon empty_db [page_old]) in
  scan_metadata
    (snd (@save plain_fernet identity_digest quoting_json elements_order
            plain_manager at_noon db1 [page_old]))
  = [ {| scan_start := 1200; scan_end := None; items_collected := 1;
         domains_scanned := lit "abcdefghijklmnop.onion" |};
      {| scan_start := 1200; scan_end := None; items_collected := 0;
         domains_scanned := lit "abcdefghijklmnop.onion" |} ].
Proof. vm_compute. reflexivity. Qed.

(** C6 as stated fails: a call with an empty batch, which is what the menu
    passes on after a crawl that collected nothing, appends no metadata. *)
Lemma empty_batch_no_metadata :
  scan_metadata
    (snd (@save plain_fernet identity_digest quoting_json elements_order
            plain_manager at_noon empty_db []))
  = [].
Proof. reflexivity. Qed.

End MetadataFacts.

(** ** Loading *)
Module LoadFacts.
Import Store Model StoreFacts.

Lemma sql_limit_split {A} (limit : Z) (rows : list A) :
  ∃ rest, sql_limit limit rows ++ rest = rows
          ∧ ((0 ≤ limit)%Z →
             length (sql_limit limit rows) = Nat.min (Z.to_nat limit) (length rows))
          ∧ ((limit < 0)%Z → rest = []).
Proof.
  unfold sql_limit. destruct (Z.ltb_spec limit 0).
  - exists []. rewrite app_nil_r. repeat split; intros; try done; lia.
  - exists (drop (Z.to_nat limit) rows). rewrite take_drop, length_take.
    repeat split; intros; try done; lia.
Qed.

Lemma fits_int64_spec limit :
  fits_int64 limit = true
  ↔ (-9223372036854775808 ≤ limit ≤ 9223372036854775807)%Z.
Proof. unfold fits_int64. rewrite andb_true_iff, !Z.leb_le. tauto. Qed.

Section Load.
Context `{Fernet, Json, SqlOrder}.

(** [load] returns exactly when the limit is an integer of 64 bits, and then
    it hands over the rows the SELECT gave, each with its content. *)
Lemma load_returns self db limit decrypt_content :
  fits_int64 limit = true →
  load self db limit decrypt_content
  = Return (map (λ r, (r, load_content self decrypt_content (content r)))
              (sql_limit limit (order_by_timestamp_desc (collected_data db)))).
Proof. intros Hfits. unfold load, select_recent. by rewrite Hfits. Qed.

Lemma load_raises self db limit decrypt_content :
  fits_int64 limit = false →
  load self db limit decrypt_content = Raise OverflowError.
Proof. intros Hfits. unfold load, select_recent. by rewrite Hfits. Qed.

(** C7, as the code has it. For a limit that is an integer of 64 bits,
    whatever the engine does with equal time stamps, [load] returns, and it
    returns the records most recent first: what it returns is in
    non-increasing order of time stamp and every record it leaves out is no
    newer than any it returns. For a limit that is not negative it returns
    [min(limit, size)] records, so at most [limit]; a negative limit is no
    limit and everything is returned. With decryption asked for, a record
    whose content cannot be decrypted and decoded comes back with the marker
    as its content: no record makes [load] raise. For any other limit [load]
    raises OverflowError and returns nothing. *)
Theorem load_most_recent_first self db limit decrypt_content :
  ((-9223372036854775808 ≤ limit ≤ 9223372036854775807)%Z →
   ∃ data rest,
     load self db limit decrypt_content = Return data
     ∧ map fst data ++ rest ≡ₚ collected_data db
     ∧ StronglySorted newer_or_same (map fst data)
     ∧ (∀ a b, a ∈ map fst data → b ∈ rest → newer_or_same a b)
     ∧ ((0 ≤ limit)%Z →
        length data = Nat.min (Z.to_nat limit) (length (collected_data db))
        ∧ (Z.of_nat (length data) ≤ limit)%Z)
     ∧ ((limit < 0)%Z → length data = length (collected_data db))
     ∧ (∀ r c b e, (r, c) ∈ data →
                   decrypt_content = true → content r = Some b → b ≠ [] →
                   _decrypt_data self b = Raise e ∨
                   (∃ s, _decrypt_data self b = Return s ∧ json_loads s = None) →
                   c = Text encrypted_content_marker))
  ∧ (¬ (-9223372036854775808 ≤ limit ≤ 9223372036854775807)%Z →
     load self db limit decrypt_content = Raise OverflowError).
Proof.
  split.
  2: { intros Hout. apply load_raises. apply not_true_iff_false.
       by rewrite fits_int64_spec. }
  intros Hfits%fits_int64_spec. rewrite (load_returns _ _ _ _ Hfits).
  destruct (sql_limit_split limit (order_by_timestamp_desc (collected_data db)))
    as (rest & Hsplit & Hlen & Hall).
  pose proof (order_by_sorted (collected_data db)) as Hsorted.
  rewrite <- Hsplit in Hsorted.
  assert (length (order_by_timestamp_desc (collected_data db))
          = length (collected_data db)) as Hsize.
  { by rewrite order_by_permutation. }
  eexists _, rest. split; [reflexivity |].
  rewrite map_map. simpl. rewrite map_id, length_map.
  split; [| split; [| split; [| split; [| split]]]].
  - rewrite Hsplit. apply order_by_permutation.
  - by apply StronglySorted_app_1_l in Hsorted.
  - intros a b Ha Hb. by eapply StronglySorted_app_1_elem_of.
  - intros Hpos. rewrite (Hlen Hpos), Hsize. split; [done | lia].
  - intros Hneg. pose proof (f_equal length Hsplit) as Hl.
    rewrite length_app, (Hall Hneg) in Hl. simpl in Hl. lia.
  - intros r c b e Hin -> Hb Hne Hfail.
    apply list_elem_of_fmap in Hin as (r' & [= -> ->] & _).
    rewrite Hb. unfold load_content.
    destruct b as [| o b]; [done |].
    destruct Hfail as [-> | (s & -> & ->)]; done.
Qed.

End Load.

Lemma load_most_recent_first_witness :
  ∃ data,
    @load plain_fernet quoting_json merge_order plain_manager two_records 1 true
    = Return data
    ∧ length data = Nat.min (Z.to_nat 1) (length (collected_data two_records)).
Proof.
  destruct (proj1 (@load_most_recent_first plain_fernet quoting_json merge_order
                     plain_manager two_records 1 true))
    as (data & rest & Hload & _ & _ & _ & Hlen & _).
  - lia.
  - exists data. split; [exact Hload |]. apply Hlen. lia.
Defined.

Example load_newest_of_two :
  match @load plain_fernet quoting_json merge_order plain_manager two_records 1 true with
  | Return data => map (λ rc, url (fst rc)) data = [lit "http://qrstuvwxyzabcdef.onion/"]
  | Raise _ => False
  end.
Proof. vm_compute. reflexivity. Qed.

(** A negative limit is no limit: both records come back. *)
Example negative_limit_returns_all :
  match @load plain_fernet quoting_json merge_order plain_manager two_records (-1) true with
  | Return data => length data = 2%nat
  | Raise _ => False
  end.
Proof. vm_compute. reflexivity. Qed.

(** C7 as stated fails for a limit of 2^63: the parameter does not fit an
    SQLite integer, the SELECT raises OverflowError and [load] with it, so
    nothing is returned, whatever the store holds. The same call with the
    limit 2^63 - 1 returns. *)
Lemma limit_out_of_range_raises :
  @load plain_fernet quoting_json merge_order plain_manager two_records
    9223372036854775808 true
  = Raise OverflowError
  ∧ ∃ data,
      @load plain_fernet quoting_json merge_order plain_manager two_records
        9223372036854775807 true
      = Return data.
Proof.
  split; [by apply load_raises |].
  eexists. by apply load_returns.
Qed.

End LoadFacts.

(** ** Wiping *)
Module WipeFacts.
Import Store Model StoreFacts.

(** A bind that returns ran both of its parts. *)
Lemma bind_returns {A B} (m : io A) (k : A → io B) fs b fs' :
  (m ≫= k) fs = (Return b, fs') →
  ∃ a fs1, m fs = (Return a, fs1) ∧ k a fs1 = (Return b, fs').
Proof.
  unfold mbind, io_bind. destruct (m fs) as [[a | e] fs1]; [| done].
  intros Hk. by exists a, fs1.
Qed.

Section Wipe.
Context `{Os}.

Lemma urandom_0 seed : urandom seed 0 = [].
Proof. apply nil_length_inv, urandom_length. Qed.

Lemma path_exists_returns path fs b fs' :
  path_exists path fs = (Return b, fs') →
  fs' = fs ∧ b = bool_decide (is_Some (files fs !! path)).
Proof. unfold path_exists. by intros [= <- <-]. Qed.

Lemma open_wb_returns path fs u fs' :
  open_wb path fs = (Return u, fs') →
  fs' = {| files := <[path := Raw []]> (files fs);
           trace := trace fs ++ [FsTruncate path] |}.
Proof. unfold open_wb. destruct (io_fails _); [done |]. by intros [= <-]. Qed.

Lemma getsize_returns path fs n fs' :
  getsize path fs = (Return n, fs') →
  fs' = fs ∧ ∃ f, files fs !! path = Some f ∧ n = getsize_of f.
Proof.
  unfold getsize. destruct (files fs !! path) as [f |]; [| done].
  intros [= <- <-]. eauto.
Qed.

Lemma write_returns path data fs u fs' :
  write path data fs = (Return u, fs') →
  ∃ b, files fs !! path = Some (Raw b)
       ∧ fs' = {| files := <[path := Raw (b ++ data)]> (files fs);
                  trace := trace fs ++ [FsWrite path data] |}.
Proof.
  unfold write. destruct (io_fails _); [done |].
  destruct (files fs !! path) as [[b | d] |]; try done.
  intros [= <-]. eauto.
Qed.

Lemma remove_returns path fs u fs' :
  remove path fs = (Return u, fs') →
  fs' = {| files := delete path (files fs); trace := trace fs ++ [FsRemove path] |}.
Proof.
  unfold remove. destruct (io_fails _); [done |].
  destruct (files fs !! path); [| done]. by intros [= <-].
Qed.

Context `{Fernet}.

(** C9 on the code. A [wipe] that returns [True] on a store whose database
    file exists, whatever its size, has done this and nothing more: cut the
    file to length zero, written zero octets into it (the size is read after
    the cut, so [os.urandom] is asked for nothing), removed it, and removed
    the key file if there was one. Both files are gone afterwards. No octet
    of the old content is written over. *)
Theorem wipe_overwrites_nothing self seed fs fs' f :
  files fs !! db_name self = Some f →
  wipe self seed fs = (true, fs') →
  ∃ tail,
    trace fs' = trace fs ++ [FsTruncate (db_name self); FsWrite (db_name self) [];
                             FsRemove (db_name self)] ++ tail
    ∧ (tail = [] ∨ tail = [FsRemove (key_file self)])
    ∧ files fs' !! db_name self = None
    ∧ files fs' !! key_file self = None.
Proof.
  intros Hf Hw. unfold wipe in Hw.
  destruct (wipe_body self seed fs) as [[u | e] fs_end] eqn:Hbody; [| done].
  injection Hw as ->. unfold wipe_body in Hbody.
  apply bind_returns in Hbody as (present & fs0 & [-> ->]%path_exists_returns & Hbody).
  rewrite Hf, bool_decide_eq_true_2 in Hbody by eauto.
  apply bind_returns in Hbody as (u1 & fs3 & Hdb & Hkey).
  apply bind_returns in Hdb as (u2 & fs1 & ->%open_wb_returns & Hdb).
  apply bind_returns in Hdb as (size & fs1' & [-> (f1 & Hf1 & ->)]%getsize_returns & Hdb).
  simpl in Hf1. rewrite lookup_insert_eq in Hf1. injection Hf1 as <-.
  simpl in Hdb. rewrite urandom_0 in Hdb.
  apply bind_returns in Hdb as (u3 & fs2 & (b & Hb & ->)%write_returns & ->%remove_returns).
  simpl in Hb. rewrite lookup_insert_eq in Hb. injection Hb as <-.
  simpl in Hkey.
  apply bind_returns in Hkey as (present & fs4 & [-> ->]%path_exists_returns & Hkey).
  simpl in Hkey. rewrite <- !app_assoc in Hkey. simpl in Hkey.
  destruct (bool_decide_reflect (is_Some (delete (db_name self)
              (<[db_name self:=Raw []]> (<[db_name self:=Raw []]> (files fs))) !! key_file self)))
    as [Hthere | Hgone].
  - apply remove_returns in Hkey as ->. simpl.
    exists [FsRemove (key_file self)]. rewrite <- !app_assoc. simpl.
    split; [done |]. split; [by right |].
    split; [| apply lookup_delete_eq].
    destruct (decide (db_name self = key_file self)) as [-> | Hne]; [apply lookup_delete_eq |].
    rewrite lookup_delete_ne by done. apply lookup_delete_eq.
  - injection Hkey as ?. subst fs'. simpl. exists [].
    split; [done |]. split; [by left |]. split; [apply lookup_delete_eq |].
    by apply eq_None_not_Some.
Qed.

Context `{Sha256, Json, SetOrder, SqlOrder}.

(** A store made where neither file exists, on a machine whose file
    operations succeed, loads as the empty list. *)
Lemma fresh_store_loads_nothing seed fs :
  (∀ t, io_fails t = false) →
  files fs !! lit "darkweb_data.db" = None →
  files fs !! lit "data_key.key" = None →
  ∃ self fs1, __init__ seed fs = (Return self, fs1)
              ∧ ∀ limit decrypt_content,
                  fits_int64 limit = true →
                  load_file self limit decrypt_content fs1 = (Return [], fs1).
Proof.
  intros Hio Hdb Hkey.
  destruct (fernet_generated seed) as [c Hc].
  unfold __init__, _init_crypto, _init_db, mbind, io_bind, mret, io_ret,
    path_exists, open_wb, write, read.
  rewrite Hkey. rewrite bool_decide_eq_false_2 by (by intros [? ?]).
  rewrite !Hio. simpl. rewrite lookup_insert_eq. simpl.
  rewrite lookup_insert_eq, Hc.
  cbn [files trace].
  rewrite !lookup_insert_ne by (intros Heq; vm_compute in Heq; discriminate).
  rewrite Hdb.
  eexists _, _. split; [reflexivity |].
  intros limit decrypt_content Hfits. unfold load_file. simpl.
  rewrite lookup_insert_eq, (LoadFacts.load_returns _ _ _ _ Hfits). simpl.
  assert (order_by_timestamp_desc [] = []) as ->
    by apply Permutation_nil_r, order_by_permutation.
  unfold sql_limit. destruct (limit <? 0)%Z; [done |]. by destruct (Z.to_nat limit).
Qed.

End Wipe.

Lemma wipe_overwrites_nothing_witness :
  ∃ tail,
    trace (snd (@wipe plain_fernet quiet_os plain_manager 9 disk_with_store))
    = [] ++ [FsTruncate (lit "darkweb_data.db"); FsWrite (lit "darkweb_data.db") [];
             FsRemove (lit "darkweb_data.db")] ++ tail.
Proof.
  destruct (@wipe_overwrites_nothing quiet_os plain_fernet plain_manager 9
              disk_with_store
              (snd (@wipe plain_fernet quiet_os plain_manager 9 disk_with_store))
              (Sqlite two_records))
    as (tail & Htrace & _).
  - vm_compute. reflexivity.
  - vm_compute. reflexivity.
  - exists tail. exact Htrace.
Defined.

(** The database file holds 4098 octets; [wipe] writes none. *)
Example wipe_trace_on_disk :
  @getsize_of quiet_os (Sqlite two_records) = 4098%nat
  ∧ fst (@wipe plain_fernet quiet_os plain_manager 9 disk_with_store) = true
  ∧ trace (snd (@wipe plain_fernet quiet_os plain_manager 9 disk_with_store))
    = [FsTruncate (lit "darkweb_data.db"); FsWrite (lit "darkweb_data.db") [];
       FsRemove (lit "darkweb_data.db"); FsRemove (lit "data_key.key")].
Proof. vm_compute. repeat split. Qed.

End WipeFacts.

(** ** The fetcher and the extractor, for every transport and every page *)
Module FetchBounds.
Import Scraper Model.

Section Bounds.
Context `{Transport}.

(** The loop over the last [n] attempts: it only adds to the history, sends
    at most [n] GETs, at least one when there is an attempt left, and calls
    [renew_identity] once less than it sends GETs. *)
Lemma fetch_attempts_budget self url n : ∀ k h,
  (k + n = max_retries self)%nat →
  ∃ h', snd (fetch_attempts self url (seq k n) h) = h ++ h'
        ∧ (get_calls h' ≤ n)%nat
        ∧ ((0 < n)%nat → (1 ≤ get_calls h')%nat)
        ∧ rotation_calls h' = (get_calls h' - 1)%nat.
Proof.
  induction n as [| n IH]; intros k h Hk.
  - exists []. simpl. rewrite app_nil_r. repeat split; try done; lia.
  - simpl.
    destruct (session_get (h ++ [EvUserAgent; EvDelay]) url) as [status_code text | e] eqn:Hr.
    + exists [EvUserAgent; EvDelay; EvGet url (Resp status_code text)].
      rewrite <- app_assoc.
      destruct (status_code =? 200)%Z;
        [| destruct ((status_code =? 403)%Z || (status_code =? 404)%Z)];
        simpl; (split; [done |]); (split; [cbn; lia |]); (split; [cbn; lia | done]).
    + destruct (Nat.eqb_spec k (max_retries self - 1)) as [Hlast | Hmore].
      * exists [EvUserAgent; EvDelay; EvGet url (NetErr e)]. rewrite <- app_assoc.
        simpl. split; [done |]. split; [cbn; lia |]. split; [cbn; lia | done].
      * destruct (FetchFacts.renew_identity_history
                    ((h ++ [EvUserAgent; EvDelay]) ++ [EvGet url (NetErr e)] ++ [EvSleep 5]))
          as (t & Ht & Hrot & Hget).
        rewrite <- !app_assoc in Ht. simpl in Ht.
        rewrite <- !app_assoc. simpl. rewrite Ht.
        destruct (IH (S k) (h ++ [EvUserAgent; EvDelay; EvGet url (NetErr e); EvSleep 5] ++ t))
          as (h' & Hrun & Hle & Hge & Hrots); [lia |].
        exists ([EvUserAgent; EvDelay; EvGet url (NetErr e); EvSleep 5] ++ t ++ h').
        split; [simpl in Hrun |- *; rewrite Hrun, <- !app_assoc; done |].
        rewrite !FetchFacts.get_calls_app, !FetchFacts.rotation_calls_app, Hget, Hrot, Hrots.
        change (get_calls [EvUserAgent; EvDelay; EvGet url (NetErr e); EvSleep 5]) with 1%nat.
        change (rotation_calls [EvUserAgent; EvDelay; EvGet url (NetErr e); EvSleep 5]) with 0%nat.
        assert (0 < n)%nat as Hn by lia. specialize (Hge Hn).
        repeat split; lia.
Qed.

(** X1. Whatever the network does, one call of [_fetch_url] only adds to the
    history, sends at most [max_retries] GETs (at least one when the budget is
    not zero), and calls [renew_identity] exactly once less than it sends
    GETs; a body it returns was served with status 200; with a budget of
    zero it returns [None] and touches nothing. *)
Theorem fetch_within_budget self url h :
  (∃ h', snd (_fetch_url self url h) = h ++ h'
         ∧ (get_calls h' ≤ max_retries self)%nat
         ∧ ((0 < max_retries self)%nat → (1 ≤ get_calls h')%nat)
         ∧ rotation_calls h' = (get_calls h' - 1)%nat)
  ∧ (∀ body, fst (_fetch_url self url h) = Return (Some body) →
             ∃ h0, session_get h0 url = Resp 200 body)
  ∧ (max_retries self = 0%nat → _fetch_url self url h = (Return None, h)).
Proof.
  split; [| split].
  - apply (fetch_attempts_budget self url (max_retries self) 0%nat h). lia.
  - intros body Hbody. unfold _fetch_url in Hbody.
    destruct (fetch_attempts self url (seq 0 (max_retries self)) h) as [o h1] eqn:Hrun.
    simpl in Hbody. subst o. by eapply CrawlFacts.fetch_attempts_served.
  - intros Hzero. unfold _fetch_url. by rewrite Hzero.
Qed.

End Bounds.

Lemma fetch_within_budget_witness :
  ∃ h0, @session_get (fails_twice_then IndexError IndexError (lit "page") (λ _, true))
          h0 (lit "http://a") = Resp 200 (lit "page").
Proof.
  apply (proj1 (proj2 (@fetch_within_budget
                         (fails_twice_then IndexError IndexError (lit "page") (λ _, true))
                         Scraper.__init__ (lit "http://a") []))).
  reflexivity.
Defined.

End FetchBounds.

(** ** Link extraction and the blacklist *)
Module ExtractFacts.
Import Scraper Model.

Lemma lower_app a b : lower (a ++ b) = lower a ++ lower b.
Proof. unfold lower. by rewrite map_app, concat_app. Qed.

Lemma startswith_app p s : startswith (p ++ s) p = true.
Proof.
  induction p as [| c p IH]; simpl; [by destruct s |].
  by rewrite N.eqb_refl, IH.
Qed.

Lemma endswith_app s p : endswith (s ++ p) p = true.
Proof. unfold endswith. rewrite rev_app_distr. apply startswith_app. Qed.

Section Extract.
Context `{HtmlParser, UrlLib, SetOrder}.

(** The loop over the anchors only adds URLs that pass the validation and
    miss the blacklist. *)
Lemma collect_links_checked self base_url anchors : ∀ links links',
  collect_links self base_url anchors links = Return links' →
  ∀ u, u ∈ links' →
       u ∈ links ∨ (_validate_onion_url self u = true ∧ _is_blacklisted self u = false).
Proof.
  induction anchors as [| [raw |] rest IH]; intros links links' Hrun u Hu; simpl in Hrun.
  - injection Hrun as <-. by left.
  - destruct (bool_decide (strip raw = []) || startswith (strip raw) (lit "javascript:")
              || startswith (strip raw) (lit "mailto:") || startswith (strip raw) (lit "#"));
      [by eapply IH |].
    destruct (urljoin base_url (strip raw)) as [full_url | e]; [| done].
    destruct (_validate_onion_url self full_url) eqn:Hvalid;
      [destruct (_is_blacklisted self full_url) eqn:Hblack |]; simpl in Hrun;
      try by eapply IH.
    destruct (IH _ _ Hrun u Hu) as [[Hold | ->%elem_of_singleton]%elem_of_union | Hnew];
      [by left | by right | by right].
  - by eapply IH.
Qed.

Lemma extract_links_length self base_url html links :
  _extract_links self base_url html = Return links → (length links ≤ 20)%nat.
Proof.
  unfold _extract_links.
  destruct (collect_links self base_url (soup_anchors html) ∅) as [found | e]; [| done].
  intros Heq. assert (links = take 20 (list_of_set found)) as ->
    by (unfold slice_to in Heq; congruence).
  rewrite length_take. lia.
Qed.

Lemma extract_links_all_checked self base_url html links :
  _extract_links self base_url html = Return links →
  Forall (λ u, _validate_onion_url self u = true ∧ _is_blacklisted self u = false) links.
Proof.
  unfold _extract_links.
  destruct (collect_links self base_url (soup_anchors html) ∅) as [found | e] eqn:Hrun;
    [| done].
  intros Heq. assert (links = take 20 (list_of_set found)) as ->
    by (unfold slice_to in Heq; congruence).
  apply Forall_forall. intros u Hu. apply subseteq_take in Hu.
  rewrite list_of_set_perm in Hu. apply elem_of_elements in Hu.
  destruct (collect_links_checked _ _ _ _ _ Hrun u Hu) as [Hempty | Hok]; [| done].
  by apply not_elem_of_empty in Hempty.
Qed.

(** X2. The links [_extract_links] returns for a page are at most twenty,
    pairwise distinct, and each of them passes [_validate_onion_url] and is
    not blacklisted. *)
Theorem extract_links_checked self base_url html links :
  _extract_links self base_url html = Return links →
  (length links ≤ 20)%nat
  ∧ NoDup links
  ∧ Forall (λ u, _validate_onion_url self u = true ∧ _is_blacklisted self u = false) links.
Proof.
  intros Hrun. split; [by eapply extract_links_length |].
  split; [| by eapply extract_links_all_checked].
  unfold _extract_links in Hrun.
  destruct (collect_links self base_url (soup_anchors html) ∅) as [found | e]; [| done].
  assert (links = take 20 (list_of_set found)) as ->
    by (unfold slice_to in Hrun; congruence).
  eapply sublist_NoDup; [| apply sublist_take].
  rewrite list_of_set_perm. apply NoDup_elements.
Qed.

End Extract.

Lemma extract_links_checked_witness :
  (length [site 1] ≤ 20)%nat ∧ NoDup [site 1]
  ∧ Forall (λ u, @_validate_onion_url absolute_urls Scraper.__init__ u = true
                 ∧ _is_blacklisted Scraper.__init__ u = false) [site 1].
Proof.
  apply (@extract_links_checked href_pages absolute_urls elements_order
           Scraper.__init__ (site 0) (site 1 ++ lit " #top mailto:a@b")).
  vm_compute. reflexivity.
Defined.

Section PageData.
Context `{HtmlParser, Env}.


End PageData.


(** X4. The blacklist looks at the end of the URL and ignores the case of
    ASCII letters: a URL that ends in a text whose lower case is one of the
    listed suffixes is blacklisted, also when one newline follows it. *)
Theorem blacklisted_suffix_any_case self url ending :
  lower ending ∈ blacklist self →
  _is_blacklisted self (url ++ ending) = true
  ∧ _is_blacklisted self (url ++ ending ++ [10]) = true.
Proof.
  intros Hin. unfold _is_blacklisted. rewrite !existsb_exists.
  split; exists (lower ending); (split; [by apply list_elem_of_In |]);
    unfold search_suffix; apply orb_true_iff.
  - left. rewrite lower_app. apply endswith_app.
  - right. rewrite !lower_app. apply endswith_app.
Qed.

Lemma blacklisted_suffix_any_case_witness :
  _is_blacklisted Scraper.__init__ (lit "http://abcdefghijklmnop.onion/Setup" ++ lit ".ExE")
  = true.
Proof.
  apply (proj1 (blacklisted_suffix_any_case Scraper.__init__
                  (lit "http://abcdefghijklmnop.onion/Setup") (lit ".ExE")
                  ltac:(vm_compute; set_solver))).
Defined.

End ExtractFacts.

(** ** More on the crawl *)
Module CrawlMore.
Import Scraper Store Model Bounds.

Lemma split_length s : length (split 47 s) = S (slashes s).
Proof.
  unfold slashes. induction s as [| c s IH]; simpl; [done |].
  destruct (c =? 47); simpl; [by rewrite IH |].
  destruct (split 47 s) as [| p ps]; simpl in *; [lia | done].
Qed.

Lemma slashes_lstrip_c0 u : slashes (lstrip_c0 u) = slashes u.
Proof.
  unfold slashes. induction u as [| c u IH]; simpl; [done |].
  destruct (N.leb_spec c 32); [| done].
  rewrite IH. destruct (N.eqb_spec c 47); [lia | done].
Qed.

Lemma slashes_remove_unsafe u : slashes (remove_unsafe u) = slashes u.
Proof.
  unfold slashes, remove_unsafe, str. induction u as [| c u IH]; [done |].
  rewrite filter_cons. simpl. case_decide as Hc.
  - simpl. destruct (c =? 47); simpl; by rewrite IH.
  - rewrite IH. destruct (N.eqb_spec c 47) as [-> |]; [| done].
    destruct Hc. repeat split; discriminate.
Qed.

Lemma cut_at_parts sep s a b : cut_at sep s = Some (a, b) → s = a ++ sep :: b.
Proof.
  revert a b. induction s as [| c s IH]; intros a b; simpl; [done |].
  destruct (N.eqb_spec c sep) as [-> |].
  - by intros [= <- <-].
  - destruct (cut_at sep s) as [[a' b'] |]; [| done].
    intros [= <- <-]. simpl. f_equal. by apply IH.
Qed.

Lemma slashes_split_scheme u sch rest :
  split_scheme u = (sch, rest) → (slashes rest ≤ slashes u)%nat.
Proof.
  unfold split_scheme, slashes.
  destruct (cut_at 58 u) as [[[| c pre] after] |] eqn:Hcut;
    try (intros [= <- <-]; lia).
  destruct (is_ascii_alpha c && forallb is_scheme_char (c :: pre));
    intros [= <- <-]; [| lia].
  rewrite (cut_at_parts _ _ _ _ Hcut), List.filter_app, length_app. simpl. lia.
Qed.

(** Take the hypothesis [H] apart on whether the character [c] is a slash:
    when it is not, the parsed netloc is empty and [H] is absurd. *)
Ltac empty_netloc H := simpl in H; rewrite ?andb_false_r in H; discriminate.

Ltac slash_or_absurd c H :=
  let p := fresh "p" in
  destruct c as [| p]; [empty_netloc H |];
  do 5 (destruct p as [p | p |]; try empty_netloc H);
  destruct p as [p | p |]; try empty_netloc H.

Section Valid.
Context `{UrlLib}.

(** A URL that passes the validation has a third field between slashes. *)
Lemma validated_has_host_field self u :
  _validate_onion_url self u = true → is_Some (split 47 u !! 2%nat).
Proof.
  intros Hvalid. apply lookup_lt_is_Some. rewrite split_length.
  rewrite <- slashes_lstrip_c0, <- slashes_remove_unsafe.
  unfold _validate_onion_url, urlparse in Hvalid.
  destruct (split_scheme (remove_unsafe (lstrip_c0 u))) as [sch rest] eqn:Hsplit.
  apply slashes_split_scheme in Hsplit.
  destruct rest as [| c1 [| c2 after]]; [empty_netloc Hvalid | |].
  - slash_or_absurd c1 Hvalid.
  - slash_or_absurd c1 Hvalid. slash_or_absurd c2 Hvalid.
    unfold slashes in *. simpl in Hsplit. lia.
Qed.

End Valid.

Section Crawl.
Context `{Transport, HtmlParser, UrlLib, Env, SetOrder}.

Lemma crawl_keeps_valid depth fuel : ∀ url st current_depth st',
  _validate_onion_url (this st) url = true →
  items_valid st →
  _crawl fuel url depth st current_depth = Some st' →
  items_valid st'.
Proof.
  induction fuel as [| fuel IH]; intros url st current_depth st' Hurl Hok Hrun; [done |].
  simpl in Hrun.
  destruct ((current_depth >? depth)%Z || bool_decide (url ∈ visited_urls (this st)));
    [congruence |].
  destruct (_fetch_url (visit url (this st)) url (net st)) as [[content | e] h].
  2: { by injection Hrun as <-. }
  destruct content as [[| c html] |].
  1, 3: by injection Hrun as <-.
  destruct (_extract_page_data url (c :: html) h) as [page_data | e] eqn:Hpage.
  2: { by injection Hrun as <-. }
  assert (items_valid {| this := visit url (this st);
                         results := results st ++ [page_data]; net := h |}) as Hok1.
  { unfold items_valid. simpl. apply Forall_app. split; [done |].
    constructor; [| done]. exists url. split; [| done].
    by eapply CrawlFacts.extract_page_data_url. }
  destruct (current_depth <? depth)%Z; [| by injection Hrun as <-].
  destruct (_extract_links (visit url (this st)) url (c :: html)) as [links | e] eqn:Hlinks;
    [| by injection Hrun as <-].
  pose proof (ExtractFacts.extract_links_all_checked _ _ _ _ Hlinks) as Hchecked.
  rewrite Forall_forall in Hchecked.
  eapply (CrawlFacts.crawl_links_keeps items_valid); [| | exact Hok1 | exact Hrun].
  - done.
  - intros link s s' Hlink Hs Hcall.
    eapply IH; [| exact Hs | exact Hcall]. by apply Hchecked.
Qed.

Lemma scrape_items_valid self seed depth h items self' h' :
  scrape self seed depth h = Some (Return items, self', h') →
  Forall (λ it, ∃ u, i_url it = Some u ∧ _validate_onion_url self u = true) items.
Proof.
  unfold scrape. destruct (_validate_onion_url self seed) eqn:Hseed; [| done].
  cbn [negb].
  destruct (_crawl (crawl_fuel depth) seed depth _ 0%Z) as [st |] eqn:Hrun; [| done].
  intros [= <- <- <-].
  assert (items_valid st) as Hvalid.
  { eapply crawl_keeps_valid; [| | exact Hrun]; [exact Hseed | constructor]. }
  exact Hvalid.
Qed.

(** X5. Every item [scrape] returns carries a URL that passes the
    validation, and for such an item the store finds a domain: the
    [url.split('/')[2]] of [save] does not raise on what [scrape] hands on. *)
Theorem scraped_items_have_domain self seed depth h items self' h' :
  scrape self seed depth h = Some (Return items, self', h') →
  Forall (λ it, ∃ u d, i_url it = Some u
                       ∧ _validate_onion_url self u = true
                       ∧ domain_of it = Return d) items.
Proof.
  intros Hrun. eapply Forall_impl; [exact (scrape_items_valid _ _ _ _ _ _ _ Hrun) |].
  intros it (u & Hu & Hok).
  destruct (validated_has_host_field self u Hok) as [d Hd].
  exists u, d. unfold domain_of. by rewrite Hu, Hd.
Qed.

Lemma extends_refl st : extends st st.
Proof. split; [exists []; by rewrite app_nil_r | done]. Qed.

Lemma extends_trans st0 st1 st2 : extends st0 st1 → extends st1 st2 → extends st0 st2.
Proof.
  intros [[m1 Hm1] V1] [[m2 Hm2] V2]. split; [| set_solver].
  exists (m1 ++ m2). by rewrite Hm2, Hm1, app_assoc.
Qed.

(** X6. A crawl only appends: the items collected before a call of [_crawl]
    are the front of the items after it, whatever was fetched or failed in
    between, and no URL leaves the visited set. *)
Theorem crawl_only_appends depth fuel : ∀ url st current_depth st',
  _crawl fuel url depth st current_depth = Some st' →
  (∃ more, results st' = results st ++ more)
  ∧ visited_urls (this st) ⊆ visited_urls (this st').
Proof.
  change (∀ url st current_depth st',
            _crawl fuel url depth st current_depth = Some st' → extends st st').
  induction fuel as [| fuel IH]; intros url st current_depth st' Hrun; [done |].
  simpl in Hrun.
  destruct ((current_depth >? depth)%Z || bool_decide (url ∈ visited_urls (this st)));
    [injection Hrun as <-; apply extends_refl |].
  assert (∀ more h, extends st {| this := visit url (this st);
                                  results := results st ++ more; net := h |}) as Hstep.
  { intros more h. split; simpl; [by exists more | set_solver]. }
  assert (∀ h, extends st {| this := visit url (this st);
                             results := results st; net := h |}) as Hstay.
  { intros h. split; simpl; [exists []; by rewrite app_nil_r | set_solver]. }
  destruct (_fetch_url (visit url (this st)) url (net st)) as [[content | e] h].
  2: { injection Hrun as <-. apply Hstay. }
  destruct content as [[| c html] |].
  1, 3: injection Hrun as <-; apply Hstay.
  destruct (_extract_page_data url (c :: html) h) as [page_data | e].
  2: { injection Hrun as <-. apply Hstay. }
  destruct (current_depth <? depth)%Z; [| injection Hrun as <-; apply Hstep].
  destruct (_extract_links (visit url (this st)) url (c :: html)) as [links | e];
    [| injection Hrun as <-; apply Hstep].
  eapply (CrawlFacts.crawl_links_keeps (extends st)); [| | apply Hstep | exact Hrun].
  - intros s h0 [Hres Hvis]. by split.
  - intros link s s' _ Hs Hcall. eapply extends_trans; [exact Hs |].
    exact (IH _ _ _ _ Hcall).
Qed.

(** The loop over the links adds what its calls add. *)
Lemma crawl_links_bound bound rec links :
  (∀ link st st', rec link st = Some st' →
                  (length (results st') ≤ length (results st) + bound)%nat) →
  ∀ st st', crawl_links rec links st = Some st' →
            (length (results st') ≤ length (results st) + length links * bound)%nat.
Proof.
  intros Hrec. induction links as [| link rest IH]; intros st st' Hrun; simpl in Hrun.
  - injection Hrun as <-. simpl. lia.
  - destruct (rec link _) as [st1 |] eqn:Hcall; [| done].
    apply Hrec in Hcall. apply IH in Hrun. simpl in *. lia.
Qed.

Lemma crawl_pages_bound depth fuel : ∀ url st current_depth st',
  _crawl fuel url depth st current_depth = Some st' →
  (length (results st')
   ≤ length (results st) + pages_bound (Z.to_nat (depth + 1 - current_depth)))%nat.
Proof.
  induction fuel as [| fuel IH]; intros url st current_depth st' Hrun; [done |].
  simpl in Hrun.
  destruct (Z.gtb_spec current_depth depth) as [Hdeep | Hdepth];
    [simpl in Hrun; injection Hrun as <-; lia |].
  destruct (bool_decide (url ∈ visited_urls (this st)));
    [simpl in Hrun; injection Hrun as <-; lia |].
  simpl in Hrun.
  replace (Z.to_nat (depth + 1 - current_depth))
    with (S (Z.to_nat (depth + 1 - (current_depth + 1)))) by lia.
  cbn [pages_bound].
  destruct (_fetch_url (visit url (this st)) url (net st)) as [[content | e] h].
  2: { injection Hrun as <-. simpl. lia. }
  destruct content as [[| c html] |].
  1, 3: injection Hrun as <-; simpl; lia.
  destruct (_extract_page_data url (c :: html) h) as [page_data | e].
  2: { injection Hrun as <-. simpl. lia. }
  destruct (current_depth <? depth)%Z;
    [| injection Hrun as <-; simpl; rewrite length_app; simpl; lia].
  destruct (_extract_links (visit url (this st)) url (c :: html)) as [links | e] eqn:Hlinks;
    [| injection Hrun as <-; simpl; rewrite length_app; simpl; lia].
  apply ExtractFacts.extract_links_length in Hlinks.
  eapply crawl_links_bound in Hrun; [| intros link s s' Hcall; eapply IH, Hcall].
  simpl in Hrun. rewrite length_app in Hrun. simpl in Hrun. nia.
Qed.

Lemma scrape_length self seed depth h items self' h' :
  scrape self seed depth h = Some (Return items, self', h') →
  (length items ≤ pages_bound (Z.to_nat (depth + 1)))%nat.
Proof.
  unfold scrape. destruct (_validate_onion_url self seed); [| done]. cbn [negb].
  destruct (_crawl (crawl_fuel depth) seed depth _ 0%Z) as [st |] eqn:Hrun; [| done].
  intros [= <- <- <-]. apply crawl_pages_bound in Hrun. simpl in Hrun.
  by replace (depth + 1 - 0)%Z with (depth + 1)%Z in Hrun by lia.
Qed.

Lemma clamped_pages_bound parsed :
  (Z.of_nat (pages_bound (Z.to_nat (Main.clamp_depth parsed + 1))) ≤ 8421)%Z.
Proof.
  unfold Main.clamp_depth. destruct parsed as [n |]; [| by vm_compute].
  assert (Z.min (Z.max n 1) 3 = 1 ∨ Z.min (Z.max n 1) 3 = 2 ∨ Z.min (Z.max n 1) 3 = 3)%Z
    as [-> | [-> | ->]] by lia; by vm_compute.
Qed.

(** X7. The fan-out cap bounds a crawl: [scrape] to depth [d] returns at most
    1 + 20 + ... + 20^d items, none for a negative depth, and with the depth
    the menu passes on (1 to 3) never more than 8421. *)
Theorem scrape_pages_bound self seed depth h items self' h' :
  scrape self seed depth h = Some (Return items, self', h') →
  (length items ≤ pages_bound (Z.to_nat (depth + 1)))%nat
  ∧ ((depth < 0)%Z → items = [])
  ∧ ((∃ parsed, depth = Main.clamp_depth parsed) → (Z.of_nat (length items) ≤ 8421)%Z).
Proof.
  intros Hrun. apply scrape_length in Hrun.
  split; [exact Hrun |]. split.
  - intros Hneg. replace (Z.to_nat (depth + 1)) with 0%nat in Hrun by lia.
    simpl in Hrun. apply nil_length_inv. lia.
  - intros [parsed ->]. pose proof (clamped_pages_bound parsed). lia.
Qed.

End Crawl.

(** The theorems at work on the chain of sites. *)
Section OnTheChain.
Import Model2.
#[local] Existing Instances chain_web href_pages absolute_urls frozen_env elements_order.

Lemma scraped_items_have_domain_witness :
  length chain_items = 3%nat
  ∧ Forall (λ it, ∃ u d, i_url it = Some u
                         ∧ _validate_onion_url Scraper.__init__ u = true
                         ∧ domain_of it = Return d) chain_items.
Proof.
  split; [vm_compute; reflexivity |].
  apply (scraped_items_have_domain Scraper.__init__ (site 0) 2 []
           chain_items chain_scraper chain_history).
  vm_compute. reflexivity.
Defined.

Lemma crawl_only_appends_witness :
  (∃ more, results chain_end = [page_old] ++ more)
  ∧ visited_urls Scraper.__init__ ⊆ visited_urls (this chain_end).
Proof.
  apply (crawl_only_appends 2 4 (site 0) chain_start 0 chain_end).
  vm_compute. reflexivity.
Defined.

Lemma scrape_pages_bound_witness :
  (length chain_items ≤ pages_bound 3)%nat.
Proof.
  apply (scrape_pages_bound Scraper.__init__ (site 0) 2 []
           chain_items chain_scraper chain_history).
  vm_compute. reflexivity.
Defined.

End OnTheChain.

End CrawlMore.

(** ** More on the store *)
Module StoreMore.
Import Store Model StoreFacts Rows.

Section Save.
Context `{Fernet, Sha256, Json, SetOrder, SqlOrder}.

(** The loop adds at most one record per item, and each record it adds
    carries the url of an item of the batch. *)
Lemma save_loop_grows self env items : ∀ st i,
  ∃ added, collected_data (the_db (save_loop self env st i items))
           = collected_data (the_db st) ++ added
           ∧ saved_count (save_loop self env st i items)
             = (saved_count st + length added)%nat
           ∧ (length added ≤ length items)%nat
           ∧ Forall (λ r, ∃ item, item ∈ items ∧ i_url item = Some (url r)) added.
Proof.
  induction items as [| item rest IH]; intros st i; simpl.
  - exists []. rewrite app_nil_r. simpl. repeat split; try lia. constructor.
  - destruct (IH (save_item self env st i item) (S i))
      as (added & Hrows & Hcount & Hlen & Hfrom).
    assert (Forall (λ r, ∃ it, it ∈ item :: rest ∧ i_url it = Some (url r)) added)
      as Hfrom'.
    { eapply Forall_impl; [exact Hfrom |]. intros r (it & Hit & Hu).
      exists it. split; [by right | done]. }
    destruct (save_item_effect self env st i item)
      as [_ [[Hsame Hcnt] | (r & Hnew & Hcnt & _ & (Hur & _))]].
    + exists added. rewrite Hrows, Hcount, Hsame, Hcnt. repeat split; try lia. done.
    + exists (r :: added). rewrite Hrows, Hcount, Hnew, Hcnt, <- app_assoc. simpl.
      repeat split; try lia. constructor; [| done].
      exists item. split; [left | done].
Qed.

Lemma save_added_from_items self env db items :
  ∃ added, collected_data (snd (save self env db items)) = collected_data db ++ added
           ∧ (length added ≤ length items)%nat
           ∧ Forall (λ r, ∃ item, item ∈ items ∧ i_url item = Some (url r)) added.
Proof.
  unfold save. destruct items as [| item rest].
  - exists []. simpl. rewrite app_nil_r. repeat split; try done.
  - destruct (save_loop_grows self env (item :: rest)
                {| the_db := db; domains := ∅; saved_count := 0 |} 0%nat)
      as (added & Hrows & _ & Hlen & Hfrom).
    exists added. cbn [snd collected_data]. by rewrite Hrows.
Qed.

(** X8. [save] only appends: the records stored before the call are the
    front of the table after it, unchanged; the call adds at most one record
    per item and at most one metadata record, and it returns [True] exactly
    when it added a record. *)
Theorem save_only_appends self env db items :
  ∃ added meta,
    collected_data (snd (save self env db items)) = collected_data db ++ added
    ∧ (length added ≤ length items)%nat
    ∧ scan_metadata (snd (save self env db items)) = scan_metadata db ++ meta
    ∧ (length meta ≤ 1)%nat
    ∧ (fst (save self env db items) = true ↔ added ≠ []).
Proof.
  unfold save. destruct items as [| item rest].
  - exists [], []. simpl. rewrite !app_nil_r. repeat split; try done; lia.
  - destruct (save_loop_grows self env (item :: rest)
                {| the_db := db; domains := ∅; saved_count := 0 |} 0%nat)
      as (added & Hrows & Hcount & Hlen & _).
    destruct (save_loop_effect self env (item :: rest)
                {| the_db := db; domains := ∅; saved_count := 0 |} 0%nat)
      as (Hmeta & _).
    eexists added, [_]. cbn [snd fst collected_data scan_metadata].
    rewrite Hrows, Hmeta, Hcount. cbn [the_db saved_count Nat.add].
    split; [done |]. split; [done |]. split; [done |]. split; [simpl; lia |].
    rewrite bool_decide_eq_true. destruct added; simpl; split; try done; lia.
Qed.

(** The record an insertable item with content leaves when both its keys are
    new: its content is the token of the encoded JSON text. *)
Lemma save_item_fresh_content self env st i item u fp c :
  insertable item u fp → i_content item = Some c → c ≠ [] →
  u ∉ map url (collected_data (the_db st)) →
  fp ∉ map source_hash (collected_data (the_db st)) →
  ∃ r b, collected_data (the_db (save_item self env st i item))
         = collected_data (the_db st) ++ [r]
         ∧ encode (json_dumps c) = Return b
         ∧ content r = Some (fernet_encrypt (the_cipher self) (nonce_of env i) b)
         ∧ url r = u ∧ source_hash r = fp
         ∧ data_type r = default (lit "unknown") (i_type item)
         ∧ title r = take 500 (default (lit "No title") (i_title item))
         ∧ timestamp r = current_timestamp env i.
Proof.
  intros (Hu & Hfp & [d Hd] & Htype & Htitle & Hhash) Hc Hne Hnu Hnfp.
  pose proof (fingerprint_binds_url item u fp Hu Hfp) as Hurl.
  unfold save_item. rewrite Hfp, Hc.
  destruct c as [| o c]; [done |].
  destruct (proj1 (CodecFacts.encode_returns (json_dumps (o :: c)) 0%nat)
              (ascii_encodable _ (json_dumps_ascii (o :: c)))) as [b Hb].
  unfold _encrypt_data, encode. rewrite Hb.
  unfold domain_of. rewrite Hu, Hd. cbv zeta. cbn [data_type title url source_hash].
  rewrite Htype, Htitle, Hurl, Hhash. cbn [andb]. unfold insert_or_ignore.
  rewrite (proj2 (conflicts_false _ _)) by done.
  eexists _, b. split; [reflexivity |]. split; [reflexivity |]. simpl. done.
Qed.

(** X9. What is saved comes back. An item the INSERT accepts, with content
    and new in both keys, is stored with the item's url, its type and its
    title cut to 500 characters. A [load] with decryption whose limit is an
    integer of 64 bits and either negative or larger than the number of
    records stored before (so the default 100 on a store of fewer than 100)
    returns, and what it returns holds that record with the content that
    json.loads gives for the json.dumps of the item's content (the marker if
    json.loads refuses it), whatever the engine does with equal time stamps,
    as long as the cipher never produces an empty token. *)
Theorem saved_content_loads_back self env db item u fp c limit :
  insertable item u fp → i_content item = Some c → c ≠ [] →
  u ∉ map url (collected_data db) →
  fp ∉ map source_hash (collected_data db) →
  (∀ nonce m, fernet_encrypt (the_cipher self) nonce m ≠ []) →
  (-9223372036854775808 ≤ limit ≤ 9223372036854775807)%Z →
  (limit < 0)%Z ∨ (Z.of_nat (length (collected_data db)) < limit)%Z →
  ∃ r data,
    collected_data (snd (save self env db [item])) = collected_data db ++ [r]
    ∧ url r = u
    ∧ data_type r = default (lit "unknown") (i_type item)
    ∧ title r = take 500 (default (lit "No title") (i_title item))
    ∧ load self (snd (save self env db [item])) limit true = Return data
    ∧ (r, match json_loads (json_dumps c) with
          | Some v => Decoded v
          | None => Text encrypted_content_marker
          end) ∈ data.
Proof.
  intros Hins Hc Hne Hnu Hnfp Htoken Hfits%LoadFacts.fits_int64_spec Hlimit.
  destruct (save_item_fresh_content self env (start_of db) 0%nat item u fp c
              Hins Hc Hne Hnu Hnfp)
    as (r & b & Hrows & Hb & Hcontent & Hur & _ & Htype & Htitle & _).
  rewrite <- save_one_rows in Hrows. change (the_db (start_of db)) with db in Hrows.
  exists r. eexists. split; [exact Hrows |].
  split; [done |]. split; [done |]. split; [done |].
  split; [by apply LoadFacts.load_returns |].
  apply list_elem_of_fmap. exists r. split.
  - f_equal. rewrite Hcontent. unfold load_content.
    destruct (fernet_encrypt (the_cipher self) (nonce_of env 0%nat) b) as [| o token] eqn:Htok;
      [by apply Htoken in Htok |].
    rewrite <- Htok. unfold _decrypt_data.
    by rewrite fernet_round_trip, (CodecFacts.decode_encode _ _ _ Hb).
  - assert (sql_limit limit
              (order_by_timestamp_desc (collected_data (snd (save self env db [item]))))
            = order_by_timestamp_desc (collected_data (snd (save self env db [item]))))
      as ->.
    { unfold sql_limit. destruct (Z.ltb_spec limit 0) as [| Hpos]; [done |].
      apply take_ge. rewrite order_by_permutation, Hrows, length_app. simpl. lia. }
    apply list_elem_of_In.
    eapply Permutation_in; [symmetry; apply order_by_permutation |].
    apply list_elem_of_In. rewrite Hrows. apply elem_of_app. right. left.
Qed.

Lemma save_item_no_url self env st i item :
  i_url item = None →
  (∃ b, encode (default [] (i_content item)) = Return b) →
  save_item self env st i item
  = {| the_db := the_db st; domains := domains st ∪ {[lit "unknown"]};
       saved_count := saved_count st |}.
Proof.
  intros Hu [b Hb]. unfold save_item, fingerprint, domain_of. rewrite Hu.
  change (default [] None ++ default [] (i_content item))
    with (default [] (i_content item)).
  rewrite Hb.
  destruct (i_content item) as [[| c s] |]; try done.
  by destruct (encrypt_dumps_returns self (nonce_of env i) (c :: s)) as [token ->].
Qed.

Lemma save_item_no_host self env st i item u :
  i_url item = Some u → split 47 u !! 2%nat = None →
  save_item self env st i item = st.
Proof.
  intros Hu Hhost. unfold save_item, domain_of. rewrite Hu, Hhost.
  destruct (fingerprint item); [| done].
  by destruct (match i_content item with
               | Some (c :: s) => _
               | _ => Return None
               end).
Qed.

(** X10. Items [save] cannot place. An item without a url is not stored, and
    its batch is recorded with zero items and, when its content can be
    encoded, the domain [unknown]; an item whose url has no third field
    between slashes is not stored either, and its batch is recorded with no
    domain at all. In both cases [save] returns [False] and raises nothing. *)
Theorem save_item_without_place self env db item :
  (i_url item = None →
   (∃ b, encode (default [] (i_content item)) = Return b) →
   save self env db [item]
   = (false, {| collected_data := collected_data db;
                scan_metadata := scan_metadata db ++
                  [{| scan_start := now env; scan_end := None; items_collected := 0;
                      domains_scanned := lit "unknown" |}] |}))
  ∧ (∀ u, i_url item = Some u → split 47 u !! 2%nat = None →
          save self env db [item]
          = (false, {| collected_data := collected_data db;
                       scan_metadata := scan_metadata db ++
                         [{| scan_start := now env; scan_end := None; items_collected := 0;
                             domains_scanned := [] |}] |})).
Proof.
  split.
  - intros Hu Hb. unfold save, save_loop. rewrite (save_item_no_url _ _ _ _ _ Hu Hb).
    cbn [the_db domains saved_count collected_data scan_metadata].
    rewrite (left_id_L ∅ (∪)).
    pose proof (list_of_set_perm {[lit "unknown"]}) as Hperm.
    rewrite elements_singleton in Hperm. apply Permutation_singleton_r in Hperm.
    by rewrite Hperm.
  - intros u Hu Hhost. unfold save, save_loop.
    rewrite (save_item_no_host _ _ _ _ _ _ Hu Hhost).
    cbn [the_db domains saved_count collected_data scan_metadata].
    assert (list_of_set ∅ = []) as ->; [| done].
    apply Permutation_nil_r. rewrite list_of_set_perm. by rewrite elements_empty.
Qed.

(** Every record a turn of the loop adds has its title cut and its flag at
    the default. *)
Lemma save_item_rows_ok self env st i item :
  Forall row_ok (collected_data (the_db st)) →
  Forall row_ok (collected_data (the_db (save_item self env st i item))).
Proof.
  intros Hok. unfold save_item.
  destruct (fingerprint item); [| done].
  destruct (match i_content item with
            | Some (c :: s) => _
            | _ => Return None
            end); [| done].
  destruct (domain_of item); [| done].
  destruct (i_url item); [| done].
  cbv zeta. cbn [data_type title url source_hash].
  destruct (binds _ && binds _ && binds _ && binds _); [| done].
  unfold insert_or_ignore. destruct (conflicts _ _); [done |].
  cbn [the_db collected_data].
  apply Forall_app. split; [done |]. constructor; [| done].
  split; [| done]. cbn [title]. unfold slice_to. rewrite length_take. lia.
Qed.

Lemma save_loop_rows_ok self env items : ∀ st i,
  Forall row_ok (collected_data (the_db st)) →
  Forall row_ok (collected_data (the_db (save_loop self env st i items))).
Proof.
  induction items as [| item rest IH]; intros st i Hok; simpl; [done |].
  by apply IH, save_item_rows_ok.
Qed.

(** X11. After any sequence of [save] calls on a new store, every stored
    record has a title of at most 500 characters and the sensitivity flag 0:
    nothing in the store ever marks a record as sensitive. *)
Theorem stored_rows_ok self calls :
  Forall row_ok (collected_data (saves self calls empty_db)).
Proof.
  assert (∀ db, Forall row_ok (collected_data db) →
                Forall row_ok (collected_data (saves self calls db))) as Hgen.
  { unfold saves. induction calls as [| [env items] calls IH]; intros db Hok; simpl; [done |].
    apply IH. unfold save. destruct items as [| item rest]; [done |].
    simpl. by apply (save_loop_rows_ok self env (item :: rest)). }
  apply Hgen. constructor.
Qed.

End Save.

(** The theorems at work on the store over the cipher that hides nothing. *)
Section OnThePlainStore.
Import Model2.
#[local] Existing Instances plain_fernet identity_digest quoting_json elements_order
  merge_order.

Lemma saved_content_loads_back_witness :
  ∃ r data,
    collected_data (snd (save plain_manager at_noon empty_db [page_old])) = [r]
    ∧ url r = lit "http://abcdefghijklmnop.onion/p"
    ∧ load plain_manager (snd (save plain_manager at_noon empty_db [page_old])) 100 true
      = Return data
    ∧ (r, Decoded (json_dumps (lit "old"))) ∈ data.
Proof.
  destruct (saved_content_loads_back plain_manager at_noon empty_db page_old
              (lit "http://abcdefghijklmnop.onion/p")
              (lit "http://abcdefghijklmnop.onion/pold") (lit "old") 100)
    as (r & data & Hrows & Hurl & _ & _ & Hload & Hin).
  - split; [reflexivity |]. split; [reflexivity |]. split; [eexists; reflexivity |].
    split; [reflexivity |]. split; reflexivity.
  - reflexivity.
  - discriminate.
  - simpl. apply not_elem_of_nil.
  - simpl. apply not_elem_of_nil.
  - intros nonce m. discriminate.
  - lia.
  - right. simpl. lia.
  - exists r, data. split; [exact Hrows |]. split; [exact Hurl |].
    split; [exact Hload | exact Hin].
Defined.

Lemma save_item_without_place_witness :
  save plain_manager at_noon empty_db [page_nowhere]
  = (false, {| collected_data := [];
               scan_metadata := [{| scan_start := 1200; scan_end := None;
                                    items_collected := 0;
                                    domains_scanned := lit "unknown" |}] |}).
Proof.
  apply (proj1 (save_item_without_place plain_manager at_noon empty_db page_nowhere)).
  - reflexivity.
  - eexists. vm_compute. reflexivity.
Defined.

End OnThePlainStore.

End StoreMore.

(** ** Statistics, export and the files of the store *)
Module ReportFacts.
Import Store Model Reports.

(** X12. [get_stats] raises on every database. Its second statement is
    written with words, numbers, commas and one string in single quotes, so
    every parenthesis in it counts, and it opens four and closes three: the
    engine does not compile it, the exception is not caught, and the
    statistics are never returned. *)
Theorem get_stats_always_raises `{SqlEngine} db :
  parens_balanced domains_query = Some false
  ∧ get_stats db = Raise DatabaseError.
Proof.
  split; [reflexivity |].
  assert (sql_parses domains_query = false) as Hbad
    by (by apply sql_unmatched_refused).
  unfold get_stats, execute. rewrite Hbad.
  by destruct (sql_parses total_query).
Qed.

Section Exporting.
Context `{Fernet, Json, SqlOrder, Os, !Dumper}.

Lemma load_at_most self d limit decrypt_content data :
  (0 ≤ limit)%Z →
  load self d limit decrypt_content = Return data →
  (length data ≤ Z.to_nat limit)%nat.
Proof.
  intros Hpos. unfold load, select_recent.
  destruct (fits_int64 limit); [| done]. intros [= <-].
  unfold sql_limit. rewrite length_map.
  destruct (Z.ltb_spec limit 0); [lia |]. rewrite length_take. lia.
Qed.

Lemma load_of_empty self d limit decrypt_content :
  collected_data d = [] → fits_int64 limit = true →
  load self d limit decrypt_content = Return [].
Proof.
  intros Hempty Hfits. rewrite (LoadFacts.load_returns _ _ _ _ Hfits), Hempty.
  assert (order_by_timestamp_desc [] = []) as ->
    by apply Permutation_nil_r, order_by_permutation.
  unfold sql_limit. by destruct (limit <? 0)%Z, (Z.to_nat limit).
Qed.

(** X13. A JSON export that returns [True] has written what json.dump gives
    for the records [load] returned with its default limit: at most the 100
    most recent records, whatever the store holds. *)
Theorem export_json_at_most_100 self output_file format fs fs' :
  lower format = lit "json" →
  export self output_file format fs = (Return true, fs') →
  ∃ d data, files fs !! db_name self = Some (Sqlite d)
            ∧ load self d 100 true = Return data
            ∧ files fs' !! output_file = Some (Raw (fst (json_dump data)))
            ∧ snd (json_dump data) = None
            ∧ (length data ≤ 100)%nat.
Proof.
  intros Hfmt Hrun. unfold export in Hrun.
  apply WipeFacts.bind_returns in Hrun as (data & fs0 & Hload & Hrun).
  unfold load_file in Hload.
  destruct (files fs !! db_name self) as [[b | d] |] eqn:Hdb; try done.
  assert (load self d 100 true = Return data ∧ fs = fs0) as [Hdata <-]
    by (split; congruence).
  clear Hload.
  rewrite bool_decide_eq_true_2 in Hrun by done.
  apply WipeFacts.bind_returns in Hrun as (u & fs1 & ->%WipeFacts.open_wb_returns & Hrun).
  unfold write_dump in Hrun.
  apply WipeFacts.bind_returns in Hrun as (u' & fs2 & (b & Hb & ->)%WipeFacts.write_returns & Hrun).
  simpl in Hb. rewrite lookup_insert_eq in Hb. injection Hb as <-.
  destruct (snd (json_dump data)) as [e |] eqn:Herr; [done |].
  injection Hrun as <-. exists d, data. simpl. rewrite lookup_insert_eq.
  repeat split; try done. by apply (load_at_most self d 100 true).
Qed.

(** X14. The other ways of [export]. A format that is neither json nor csv
    in any case of letters returns [False] and writes nothing. A CSV export
    of a store without records raises IndexError, and by then the output
    file has been created or cut to length zero. *)
Theorem export_other_ways self output_file format fs d :
  files fs !! db_name self = Some (Sqlite d) →
  (lower format ≠ lit "json" → lower format ≠ lit "csv" →
   export self output_file format fs = (Return false, fs))
  ∧ (lower format = lit "csv" → collected_data d = [] → io_fails (trace fs) = false →
     export self output_file format fs
     = (Raise IndexError,
        {| files := <[output_file := Raw []]> (files fs);
           trace := trace fs ++ [FsTruncate output_file] |})).
Proof.
  intros Hdb. unfold export, load_file, mbind, io_bind. rewrite Hdb. split.
  - intros Hj Hc. by rewrite !bool_decide_eq_false_2.
  - intros Hc Hempty Hio. rewrite bool_decide_eq_false_2, bool_decide_eq_true_2; try done.
    + unfold open_wb. rewrite Hio. by rewrite (load_of_empty self d 100 true Hempty).
    + rewrite Hc. by vm_compute.
Qed.

End Exporting.

Section Reopen.
Context `{Fernet, Sha256, Json, SetOrder, Os}.

(** Where the key and the database are on disk, [DataManager()] reads the
    key and touches nothing. *)
Lemma init_on_existing_store seed fs key c d :
  files fs !! lit "data_key.key" = Some (Raw key) →
  new_cipher key = Return c →
  files fs !! lit "darkweb_data.db" = Some (Sqlite d) →
  __init__ seed fs
  = (Return {| db_name := lit "darkweb_data.db"; key_file := lit "data_key.key";
               the_cipher := c |}, fs).
Proof.
  intros Hkey Hc Hdb.
  unfold __init__, _init_crypto, _init_db, mbind, io_bind, mret, io_ret,
    path_exists, read.
  rewrite Hkey. rewrite bool_decide_eq_true_2 by eauto.
  simpl. rewrite Hkey, Hc. simpl. by rewrite Hdb.
Qed.

(** X15. The key is made once. On a disk without the two files and with file
    operations that succeed, the first [DataManager()] writes the key it
    generated and an empty database; every later [DataManager()] on that disk
    gives the same object, so the same cipher, and changes nothing, and the
    key file holds the generated key. *)
Theorem store_reopened_with_same_key seed fs :
  (∀ t, io_fails t = false) →
  files fs !! lit "darkweb_data.db" = None →
  files fs !! lit "data_key.key" = None →
  ∃ self fs1,
    __init__ seed fs = (Return self, fs1)
    ∧ files fs1 !! lit "data_key.key" = Some (Raw (generate_key seed))
    ∧ files fs1 !! lit "darkweb_data.db" = Some (Sqlite empty_db)
    ∧ ∀ seed', __init__ seed' fs1 = (Return self, fs1).
Proof.
  intros Hio Hdb Hkey.
  destruct (fernet_generated seed) as [c Hc].
  assert (lit "data_key.key" ≠ lit "darkweb_data.db") as Hne
    by (intros Heq; vm_compute in Heq; discriminate).
  set (fs1 := {| files := <[lit "darkweb_data.db" := Sqlite empty_db]>
                            (<[lit "data_key.key" := Raw (generate_key seed)]>
                               (<[lit "data_key.key" := Raw []]> (files fs)));
                 trace := (trace fs ++ [FsTruncate (lit "data_key.key")])
                          ++ [FsWrite (lit "data_key.key") (generate_key seed)]
                          ++ [FsConnect (lit "darkweb_data.db")] |}).
  assert (files fs1 !! lit "data_key.key" = Some (Raw (generate_key seed))) as Hk1.
  { simpl. rewrite lookup_insert_ne by done. apply lookup_insert_eq. }
  assert (files fs1 !! lit "darkweb_data.db" = Some (Sqlite empty_db)) as Hd1.
  { simpl. apply lookup_insert_eq. }
  exists {| db_name := lit "darkweb_data.db"; key_file := lit "data_key.key";
            the_cipher := c |}, fs1.
  split; [| split; [done | split; [done |]]].
  - unfold __init__, _init_crypto, _init_db, mbind, io_bind, mret, io_ret,
      path_exists, open_wb, write, read.
    rewrite Hkey. rewrite bool_decide_eq_false_2 by (by intros [? ?]).
    rewrite !Hio. simpl. rewrite lookup_insert_eq. simpl.
    rewrite lookup_insert_eq, Hc. cbn [files trace].
    rewrite !lookup_insert_ne by done. rewrite Hdb.
    unfold fs1. by rewrite <- !app_assoc.
  - intros seed'. by eapply init_on_existing_store.
Qed.

(** X16. A [wipe] that reports failure never leaves the database half done:
    either nothing at all was changed (the first file operation failed), or
    the database file is already empty, or it is already gone. *)
Theorem failed_wipe_leaves_no_content self seed fs fs' :
  wipe self seed fs = (false, fs') →
  fs' = fs
  ∨ files fs' !! db_name self = Some (Raw [])
  ∨ files fs' !! db_name self = None.
Proof.
  unfold wipe, wipe_body, mbind, io_bind, mret, io_ret, path_exists,
    open_wb, getsize, write, remove.
  destruct (files fs !! db_name self) as [f |] eqn:Hdb.
  - rewrite bool_decide_eq_true_2 by eauto.
    destruct (io_fails (trace fs)); simpl; [intros [= <-]; by left |].
    rewrite lookup_insert_eq. simpl. rewrite WipeFacts.urandom_0.
    destruct (io_fails (trace fs ++ [FsTruncate (db_name self)])); simpl;
      [intros [= <-]; right; left; simpl; apply lookup_insert_eq |].
    rewrite lookup_insert_eq. simpl.
    destruct (io_fails _); simpl;
      [intros [= <-]; right; left; simpl; apply lookup_insert_eq |].
    rewrite lookup_insert_eq. simpl.
    destruct (bool_decide _); simpl; [| done].
    destruct (io_fails _); simpl;
      [intros [= <-]; right; right; simpl; apply lookup_delete_eq |].
    destruct (_ !! key_file self); simpl;
      [done | intros [= <-]; right; right; simpl; apply lookup_delete_eq].
  - rewrite bool_decide_eq_false_2 by (by intros [? ?]). simpl.
    destruct (bool_decide _); simpl; [| done].
    destruct (io_fails _); simpl; [intros [= <-]; by left |].
    destruct (files fs !! key_file self) eqn:Hk; simpl; [done |].
    intros [= <-]. by left.
Qed.

End Reopen.

(** The theorems at work on the disk with two records. *)
Section OnTheDisk.
Import Model2.
#[local] Existing Instances plain_fernet identity_digest quoting_json elements_order
  merge_order counting_dumper.

Lemma export_json_at_most_100_witness :
  ∃ d data,
    files disk_with_store !! lit "darkweb_data.db" = Some (Sqlite d)
    ∧ load plain_manager d 100 true = Return data
    ∧ files (snd (@export _ _ _ quiet_os _ plain_manager (lit "out.json") (lit "JSON")
                    disk_with_store)) !! lit "out.json"
      = Some (Raw (fst (json_dump data)))
    ∧ (length data ≤ 100)%nat.
Proof.
  destruct (@export_json_at_most_100 _ _ _ quiet_os _ plain_manager
              (lit "out.json") (lit "JSON") disk_with_store
              (snd (@export _ _ _ quiet_os _ plain_manager (lit "out.json") (lit "JSON")
                      disk_with_store)))
    as (d & data & Hdb & Hload & Hout & _ & Hlen).
  - vm_compute. reflexivity.
  - vm_compute. reflexivity.
  - exists d, data. split; [exact Hdb |]. split; [exact Hload |].
    split; [exact Hout |]. exact Hlen.
Defined.

Lemma export_other_ways_witness :
  @export _ _ _ quiet_os _ plain_manager (lit "out.xml") (lit "XML") disk_with_store
  = (Return false, disk_with_store).
Proof.
  apply (proj1 (@export_other_ways _ _ _ quiet_os _ plain_manager (lit "out.xml")
                  (lit "XML") disk_with_store two_records eq_refl)).
  - vm_compute. discriminate.
  - vm_compute. discriminate.
Defined.

Lemma store_reopened_with_same_key_witness :
  ∃ self fs1,
    @__init__ plain_fernet quiet_os 3 empty_disk = (Return self, fs1)
    ∧ files fs1 !! lit "data_key.key" = Some (Raw [3])
    ∧ ∀ seed', @__init__ plain_fernet quiet_os seed' fs1 = (Return self, fs1).
Proof.
  destruct (@store_reopened_with_same_key plain_fernet quiet_os 3 empty_disk)
    as (self & fs1 & Hfirst & Hkey & _ & Hlater).
  - intros t. reflexivity.
  - reflexivity.
  - reflexivity.
  - exists self, fs1. split; [exact Hfirst |]. split; [exact Hkey |]. exact Hlater.
Defined.

Lemma failed_wipe_leaves_no_content_witness :
  snd (@wipe plain_fernet broken_os plain_manager 9 disk_with_store) = disk_with_store
  ∨ files (snd (@wipe plain_fernet broken_os plain_manager 9 disk_with_store))
      !! lit "darkweb_data.db" = Some (Raw [])
  ∨ files (snd (@wipe plain_fernet broken_os plain_manager 9 disk_with_store))
      !! lit "darkweb_data.db" = None.
Proof.
  apply (@failed_wipe_leaves_no_content plain_fernet broken_os plain_manager 9
           disk_with_store).
  vm_compute. reflexivity.
Defined.

End OnTheDisk.

End ReportFacts.

(** ** The menu, the Tor process and the first version *)
Module MenuFacts.
Import Scraper Store Model Menu.

Section ScrapeSite.
Context `{Transport, HtmlParser, UrlLib, Env, SetOrder, Fernet, Sha256, Json}.

(** X17. What one run of the menu entry can do to the store: the records
    there before stay in front, at most 8421 are added, and each added record
    carries a URL that passes the scraper's validation. An address that does
    not end in [.onion] changes nothing and sends nothing. *)
Theorem scrape_site_adds_valid_records scraper data_manager env onion_url
    depth_input h db scraper' h' db' :
  _scrape_site scraper data_manager env onion_url depth_input h db
  = Some (Return (), scraper', h', db') →
  (∃ added, collected_data db' = collected_data db ++ added
            ∧ (Z.of_nat (length added) ≤ 8421)%Z
            ∧ Forall (λ r, _validate_onion_url scraper (url r) = true) added)
  ∧ (endswith onion_url (lit ".onion") = false → db' = db ∧ h' = h).
Proof.
  unfold _scrape_site. destruct (endswith onion_url (lit ".onion")) eqn:Hsuffix; cbn [negb].
  - destruct (scrape scraper onion_url (Main.clamp_depth depth_input) h)
      as [[[[items | e] s1] h1] |] eqn:Hrun; try done.
    intros [= <- <- <-]. split; [| done].
    destruct (StoreMore.save_added_from_items data_manager env db items)
      as (added & Hrows & Hlen & Hfrom).
    exists added. split; [exact Hrows |].
    pose proof (CrawlMore.scrape_length _ _ _ _ _ _ _ Hrun) as Hitems.
    pose proof (CrawlMore.clamped_pages_bound depth_input) as Hcap.
    split; [lia |].
    pose proof (CrawlMore.scrape_items_valid _ _ _ _ _ _ _ Hrun) as Hvalid.
    rewrite Forall_forall in Hvalid.
    eapply Forall_impl; [exact Hfrom |]. intros r (it & Hit & Hu).
    destruct (Hvalid it Hit) as (u & Hu' & Hok). congruence.
  - intros [= <- <- <-]. split; [| done]. exists [].
    rewrite app_nil_r. repeat split; [simpl; lia | constructor].
Qed.

End ScrapeSite.

(** The theorem at work on the bare address of the first site. *)
Section OnTheHub.
Import Model2.
#[local] Existing Instances hub_web href_pages absolute_urls frozen_env elements_order
  plain_fernet identity_digest quoting_json.

Lemma scrape_site_adds_valid_records_witness :
  length (collected_data menu_db) = 3%nat
  ∧ ∃ added, collected_data menu_db = collected_data empty_db ++ added
             ∧ (Z.of_nat (length added) ≤ 8421)%Z
             ∧ Forall (λ r, _validate_onion_url Scraper.__init__ (url r) = true) added.
Proof.
  split; [vm_compute; reflexivity |].
  apply (scrape_site_adds_valid_records Scraper.__init__ plain_manager at_noon hub
           (Some 2%Z) [] empty_db menu_scraper menu_history menu_db).
  vm_compute. reflexivity.
Defined.

End OnTheHub.

End MenuFacts.

Module TorFacts.
Import Tor.

Section Process.
Context `{TorDaemon}.

(** X18. The process handle and the answers of the controller go together:
    [start_tor] returns [True] exactly when a process is held afterwards; on
    a controller that holds one it launches nothing; [stop_tor] always ends
    with no process held, also when terminate raised, and a [start_tor]
    after it launches again. *)
Theorem tor_process_lifecycle self log :
  (fst (start_tor self log) = true ↔ is_Some (tor_process (fst (snd (start_tor self log)))))
  ∧ (is_Some (tor_process self) → start_tor self log = (true, (self, log)))
  ∧ tor_process (fst (stop_tor self log)) = None
  ∧ (∀ log', fst (start_tor (fst (stop_tor self log)) log') = true
             ↔ ∃ p, launch_tor_with_config log' = Return p).
Proof.
  split; [| split; [| split]].
  - unfold start_tor, stop_tor. destruct self as [[p |]]; simpl; [split; eauto |].
    destruct (launch_tor_with_config log); simpl; split; eauto; try done;
      try (by intros [? ?]).
  - intros [p Hp]. unfold start_tor. by rewrite Hp.
  - unfold stop_tor. destruct self as [[p |]]; simpl; [| done].
    by destruct (terminate_raises log).
  - intros log'.
    assert (tor_process (fst (stop_tor self log)) = None) as Hnone.
    { unfold stop_tor. destruct self as [[p |]]; simpl; [| done].
      by destruct (terminate_raises log). }
    unfold start_tor. rewrite Hnone.
    destruct (launch_tor_with_config log'); simpl; split; eauto; try done;
      try (by intros [? ?]).
Qed.

End Process.

Section Test.
Context `{CheckNet}.

(** X19. [test_connection] returns [True] exactly when both test addresses
    answered, in that order, and the answer of check.torproject.org says
    that Tor is used; the answer of the second address is not looked at. *)
Theorem test_connection_true_iff :
  test_connection = true
  ↔ (∃ first second,
       check_get 0 (lit "https://check.torproject.org/api/ip") = Return first
       ∧ is_tor first = Return true
       ∧ check_get 1 (lit "http://icanhazip.com") = Return second).
Proof.
  unfold test_connection, test_urls, test_from.
  change (contains (lit "check.torproject.org") (lit "https://check.torproject.org/api/ip"))
    with true.
  change (contains (lit "check.torproject.org") (lit "http://icanhazip.com")) with false.
  destruct (check_get 0 _) as [first | e]; [| split; [done | by intros (? & ? & ? & _)]].
  destruct (is_tor first) as [[|] | e] eqn:Htor;
    try (split; [done | intros (? & ? & [= <-] & ? & _); congruence]).
  destruct (check_get 1 _) as [second | e]; cbv iota.
  - split; [intros _; by exists first, second | done].
  - split; [done | by intros (? & ? & _ & _ & ?)].
Qed.

End Test.

(** The theorems at work on a machine without trouble. *)
Section OnASteadyMachine.
Import Model2.
#[local] Existing Instances steady_daemon through_tor.

Lemma tor_process_lifecycle_witness :
  start_tor {| tor_process := Some 4711%nat |} [] = (true, ({| tor_process := Some 4711%nat |}, [])).
Proof.
  apply (proj1 (proj2 (tor_process_lifecycle {| tor_process := Some 4711%nat |} []))).
  eexists. reflexivity.
Defined.

Lemma test_connection_true_iff_witness : test_connection = true.
Proof.
  apply (proj2 test_connection_true_iff).
  do 2 eexists. split; [reflexivity |]. split; reflexivity.
Defined.

End OnASteadyMachine.

End TorFacts.

Module V1Facts.
Import Scraper V1.

Section Gather.
Context `{Web}.

(** X20. What the first version collects: one entry at most per site, in the
    order of the sites, and each entry holds the first 300 characters, not
    none, of a text its site answered with status 200. Failed requests are
    passed over, and the collection is lost only to an exception of
    requests.get that is not a RequestException. *)
Theorem gather_entries sites : ∀ k,
  (∀ entries, gather k sites = Return entries →
     map fst entries `sublist_of` sites
     ∧ Forall (λ entry, (0 < length (snd entry) ≤ 300)%nat
                        ∧ ∃ n text, requests_get n (fst entry) = Resp 200 text
                                    ∧ snd entry = take 300 text)
              entries)
  ∧ ((∀ n url e, requests_get n url = NetErr e → ∃ msg, e = RequestException msg) →
     ∃ entries, gather k sites = Return entries).
Proof.
  induction sites as [| url rest IH]; intros k; cbn [gather].
  { split; [intros entries [= <-]; split; constructor | intros _; by eexists]. }
  destruct (IH (S k)) as [Hshape Htotal]. split.
  - intros entries Hrun.
    destruct (scrape_site k url) as [content | e] eqn:Hsite; [| done].
    destruct (gather (S k) rest) as [all_data | e]; [| done].
    destruct (Hshape all_data eq_refl) as [Hsub Hall].
    assert (content = None ∨ content = Some [] ∨ ∃ c text, content = Some (c :: text))
      as [-> | [-> | (c & text & ->)]].
    { destruct content as [[| c text] |]; eauto. }
    + injection Hrun as <-. split; [by apply sublist_cons | done].
    + injection Hrun as <-. split; [by apply sublist_cons | done].
    + assert (entries = (url, slice_to 300 (c :: text)) :: all_data) as ->
        by congruence.
      split; [cbn [map fst]; by apply sublist_skip |].
      constructor; [| done]. cbn [fst snd]. unfold slice_to. split.
      * rewrite length_take. cbn [length]. lia.
      * exists k, (c :: text). split; [| done].
        unfold scrape_site in Hsite.
        destruct (requests_get k url) as [status_code body | e]; [| by destruct e].
        destruct (Z.eqb_spec status_code 200) as [-> |]; congruence.
  - intros Hnet. destruct (Htotal Hnet) as [all_data ->].
    unfold scrape_site.
    destruct (requests_get k url) as [status_code body | e] eqn:Hget.
    + destruct (status_code =? 200)%Z; [| by eexists].
      destruct body; by eexists.
    + destruct (Hnet _ _ _ Hget) as [msg ->]. by eexists.
Qed.

End Gather.

(** The theorem at work on pages of 400 characters. *)
Section OnLongPages.
Import Model2.
#[local] Existing Instance long_pages.

Lemma gather_entries_witness :
  map fst [(lit "a", replicate 300 120); (lit "b", replicate 300 120)]
    `sublist_of` [lit "a"; lit "b"]
  ∧ ∃ entries, gather 0 [lit "a"; lit "b"] = Return entries.
Proof.
  split.
  - apply (proj1 (gather_entries [lit "a"; lit "b"] 0)). vm_compute. reflexivity.
  - apply (proj2 (gather_entries [lit "a"; lit "b"] 0)). intros n url e. discriminate.
Defined.

End OnLongPages.

End V1Facts.
